(** * tev: the HEIF image loader (src/imageio/HeifImageLoader.cpp)

    A shallow embedding of [HeifImageLoader::canLoadFile] and
    [HeifImageLoader::load] with its local lambdas [decodeImage],
    [getCmsTransform], [findAppleMakerNote] and [resizeImage].

    - [float] is IEEE-754 binary32, modelled by the Standard Library's
      [spec_float] at precision 24 and maximal exponent 128;
    - [int] and [size_t] values are [Z];
    - libheif and libexif are opaque libraries: an image handle is the record
      of the answers they give to the queries the loader makes;
    - lcms2, OpenEXR's chromaticity matrices and the tev helpers declared in
      headers outside this file ([toLinear], [matchesFuzzy],
      [isAppleMakernote], [applyAppleGainMap]) are fields of [Collaborators];
    - exceptions, undefined behaviour and the log are explicit: a computation
      is a function from the trace of events so far to an [outcome] and the
      extended trace. *)

From Stdlib Require Import Bool ZArith QArith Qabs Qpower Qfield String Ascii List Lia.
From Stdlib Require Import Floats.SpecFloat.
From Stdlib Require DecimalString.
Import ListNotations.

Local Open Scope string_scope.
Local Open Scope bool_scope.
Local Open Scope Z_scope.

(** ** Single-precision floats *)

Module F32.

Definition prec : Z := 24.
Definition emax : Z := 128.

Definition t : Type := spec_float.

(** Conversion of an [int] to [float] (round to nearest, ties to even). *)
Definition of_int (z : Z) : t := binary_normalize prec emax z 0 false.

Definition add (x y : t) : t := SFadd prec emax x y.
Definition sub (x y : t) : t := SFsub prec emax x y.
Definition mul (x y : t) : t := SFmul prec emax x y.
Definition div (x y : t) : t := SFdiv prec emax x y.

Definition zero : t := S754_zero false.
Definition one : t := Eval vm_compute in of_int 1.
(** The literal [0.5f]. *)
Definition half : t := Eval vm_compute in div (of_int 1) (of_int 2).

(** [(int)std::floor(x)] for a finite [x]; the conversion of a NaN or an
    infinity to [int] is undefined in C++ and yields [0] here. *)
Definition floor_to_int (x : t) : Z :=
  match x with
  | S754_finite s m e =>
      let n := if s then Z.neg m else Z.pos m in
      if 0 <=? e then n * 2 ^ e else n / 2 ^ (- e)
  | _ => 0
  end.

(** [x < y] as C++ compares floats (false on NaN). *)
Definition ltb (x y : t) : bool := SFltb x y.

(** The rational a finite float stands for. *)
Definition to_Q (x : t) : Q :=
  match x with
  | S754_finite s m e =>
      inject_Z (if s then Z.neg m else Z.pos m) * Qpower (2 # 1) e
  | _ => 0%Q
  end.

End F32.

Definition float : Type := F32.t.

(** ** The input stream

    [std::istream] over a seekable source (a file or a memory buffer, which
    is what the viewer hands to its loaders): the bytes, the get position,
    the three state bits and the count of the last unformatted read. *)

Record istream : Type := mkStream {
  stream_bytes : list Byte.byte;
  stream_pos : nat;
  eofbit : bool;
  failbit : bool;
  badbit : bool;
  stream_gcount : nat
}.

Definition good (s : istream) : bool :=
  negb (eofbit s) && negb (failbit s) && negb (badbit s).

(** [!stream], that is [stream.fail()]. *)
Definition fail (s : istream) : bool := failbit s || badbit s.

(** [stream.read(buf, n)]: on a stream that is not good it sets [failbit]
    and extracts nothing; otherwise it extracts up to [n] bytes and sets
    [eofbit | failbit] when the source ends first. *)
Definition stream_read (n : nat) (s : istream) : list Byte.byte * istream :=
  if good s then
    let got := firstn n (skipn (stream_pos s) (stream_bytes s)) in
    let short := Nat.ltb (length got) n in
    (got,
     mkStream (stream_bytes s) (stream_pos s + length got)
              (eofbit s || short) (failbit s || short) (badbit s)
              (length got))
  else
    ([], mkStream (stream_bytes s) (stream_pos s)
                  (eofbit s) true (badbit s) 0).

(** [stream.clear()] *)
Definition stream_clear (s : istream) : istream :=
  mkStream (stream_bytes s) (stream_pos s) false false false (stream_gcount s).

(** [stream.seekg(p)]: clears [eofbit]; does nothing more on a failed
    stream; otherwise moves the get position, or sets [failbit] when [p] is
    past the end. *)
Definition stream_seekg (p : nat) (s : istream) : istream :=
  let s1 := mkStream (stream_bytes s) (stream_pos s) false
                     (failbit s) (badbit s) (stream_gcount s) in
  if fail s1 then s1
  else if Nat.leb p (length (stream_bytes s)) then
    mkStream (stream_bytes s) p false (failbit s) (badbit s) (stream_gcount s)
  else
    mkStream (stream_bytes s) (stream_pos s) false true (badbit s)
             (stream_gcount s).

(** libheif's answer to [heif_check_filetype]. *)
Inductive heif_filetype_result : Type :=
| heif_filetype_no
| heif_filetype_yes_supported
| heif_filetype_yes_unsupported
| heif_filetype_maybe.

Definition heif_filetype_result_eqb (a b : heif_filetype_result) : bool :=
  match a, b with
  | heif_filetype_no, heif_filetype_no
  | heif_filetype_yes_supported, heif_filetype_yes_supported
  | heif_filetype_yes_unsupported, heif_filetype_yes_unsupported
  | heif_filetype_maybe, heif_filetype_maybe => true
  | _, _ => false
  end.

Section CanLoadFile.

Variable heif_check_filetype : list Byte.byte -> Z -> heif_filetype_result.

(** [HeifImageLoader::canLoadFile] *)
Definition canLoadFile (iStream : istream) : bool * istream :=
  let '(header, s1) := stream_read 12 iStream in
  let failed := fail s1 || negb (Nat.eqb (stream_gcount s1) 12) in
  let s2 := stream_clear s1 in
  let s3 := stream_seekg 0 s2 in
  if failed then (false, s3)
  else
    (heif_filetype_result_eqb (heif_check_filetype header 12)
                              heif_filetype_yes_supported,
     s3).

End CanLoadFile.

(** ** Strings *)

(** [s.find(needle) != std::string::npos] *)
Fixpoint string_contains (needle s : string) : bool :=
  String.prefix needle s ||
  match s with
  | EmptyString => false
  | String _ rest => string_contains needle rest
  end.

(** [std::replace(s.begin(), s.end(), from, to)] *)
Fixpoint string_replace (from to : ascii) (s : string) : string :=
  match s with
  | EmptyString => EmptyString
  | String c rest =>
      String (if Ascii.eqb c from then to else c) (string_replace from to rest)
  end.

(** [fmt::format("{}", n)] for an [int]. *)
Definition format_int (n : Z) : string :=
  DecimalString.NilZero.string_of_int (Z.to_int n).

(** ** Vectors, channels and images (tev/Channel.h, tev/Image.h) *)

Definition Vector2i : Type := (Z * Z)%type.

Definition Vector2i_eqb (a b : Vector2i) : bool :=
  (fst a =? fst b) && (snd a =? snd b).

Record Channel : Type := mkChannel {
  channel_name : string;
  channel_size : Vector2i;
  channel_data : list float
}.

(** [channel.at(i)] *)
Definition Channel_at (c : Channel) (i : Z) : float :=
  nth (Z.to_nat i) (channel_data c) F32.zero.

Definition Matrix4f : Type := list (list float).

Definition Matrix4f_identity : Matrix4f :=
  [ [F32.one; F32.zero; F32.zero; F32.zero];
    [F32.zero; F32.one; F32.zero; F32.zero];
    [F32.zero; F32.zero; F32.one; F32.zero];
    [F32.zero; F32.zero; F32.zero; F32.one] ].

(** Modelled from the spec: the struct [ImageData] of tev/Image.h is not in
    this file.  An image is its ordered channels, the 4x4 matrix to the
    working space (the identity unless the loader sets it) and the
    premultiplied-alpha flag. *)
Record ImageData : Type := mkImageData {
  channels : list Channel;
  toRec709 : Matrix4f;
  hasPremultipliedAlpha : bool
}.

(** [0, 1, ..., n-1], the index range of a [for] loop. *)
Definition Zrange (n : Z) : list Z := map Z.of_nat (seq 0 (Z.to_nat n)).

(** Modelled from the spec: [makeNChannels] of tev/imageio/ImageLoader.h is
    not in this file.  It makes [numChannels] channels of the given size,
    named by the prefix and the position (R, G, B, A: the loader relies on
    RGBA order), every sample zero. *)
Definition makeNChannels (numChannels : Z) (size : Vector2i)
    (namePrefix : string) : list Channel :=
  map (fun c =>
         mkChannel (namePrefix ++ nth (Z.to_nat c) ["R"; "G"; "B"; "A"] (format_int c))
                   size
                   (repeat F32.zero (Z.to_nat (fst size * snd size))))
      (Zrange numChannels).

(** ** Exceptions, undefined behaviour and the log *)

Inductive event : Type :=
| LogWarning (msg : string)
| LogDebug (msg : string)
| HeifDecodeImage
| HeifGetPlane
| MakeNChannels (numChannels : Z) (size : Vector2i) (namePrefix : string)
| AllocFloats (n : Z)
| ApplyAppleGainMap.

Inductive outcome (A : Type) : Type :=
| Ok (a : A)
| Throw (what : string)
| Undefined.

Arguments Ok {A} a.
Arguments Throw {A} what.
Arguments Undefined {A}.

(** A computation of the loader: it extends the trace and returns, throws
    [std::invalid_argument], or runs into undefined behaviour. *)
Definition Task (A : Type) : Type := list event -> outcome A * list event.

Definition ret {A : Type} (a : A) : Task A := fun tr => (Ok a, tr).

Definition bind {A B : Type} (m : Task A) (k : A -> Task B) : Task B :=
  fun tr =>
    match m tr with
    | (Ok a, tr') => k a tr'
    | (Throw what, tr') => (Throw what, tr')
    | (Undefined, tr') => (Undefined, tr')
    end.

Definition emit (e : event) : Task unit := fun tr => (Ok tt, (tr ++ [e])%list).

Definition throw {A : Type} (what : string) : Task A := fun tr => (Throw what, tr).

Definition undefined {A : Type} : Task A := fun tr => (Undefined, tr).

Notation "x <- m ;; k" := (bind m (fun x => k))
  (at level 61, m at next level, right associativity).
Notation "m ;; k" := (bind m (fun _ => k))
  (at level 61, right associativity).

(** ** libheif and libexif: the answers of the opaque libraries *)

Inductive heif_error_code : Type :=
| heif_error_Color_profile_does_not_exist
| heif_error_other (code : Z).

(** A call either succeeds ([error.code == heif_error_Ok]) or gives a code
    other than [heif_error_Ok] and a message. *)
Inductive heif_result (A : Type) : Type :=
| heif_Ok (a : A)
| heif_Error (code : heif_error_code) (message : string).

Arguments heif_Ok {A} a.
Arguments heif_Error {A} code message.

(** A decoded interleaved plane: [heif_image_get_bits_per_pixel_range] and
    [heif_image_get_plane_readonly], the latter as rows of 16-bit samples in
    native byte order ([None] is the null pointer). *)
Record heif_image : Type := mkHeifImage {
  bits_per_pixel_range : Z;
  plane_readonly : option (list (list Z))
}.

(** [typedData[x]] in row [y]. *)
Definition plane_sample (data : list (list Z)) (y x : Z) : Z :=
  nth (Z.to_nat x) (nth (Z.to_nat y) data []) 0.

Record heif_color_profile_nclx : Type := mkNclx {
  color_primaries : Z;
  color_primary_red_x : float;
  color_primary_red_y : float;
  color_primary_green_x : float;
  color_primary_green_y : float;
  color_primary_blue_x : float;
  color_primary_blue_y : float;
  color_primary_white_x : float;
  color_primary_white_y : float
}.

Definition heif_color_primaries_ITU_R_BT_709_5 : Z := 1.

Record heif_image_handle : Type := mkHandle {
  has_alpha_channel : bool;
  is_premultiplied_alpha : bool;
  get_width : Z;
  get_height : Z;
  decode_image : heif_result heif_image;
  get_raw_color_profile_size : Z;
  get_raw_color_profile : heif_result (list Byte.byte);
  get_nclx_color_profile : heif_result heif_color_profile_nclx;
  get_auxiliary_type : heif_result (option string)
}.

Record ExifEntry : Type := mkExifEntry {
  entry_data : list Byte.byte;
  entry_size : Z
}.

(** A decoded EXIF block: [exif_data_get_entry(exif, EXIF_TAG_MAKER_NOTE)]
    is the entry, or [None] for the null pointer libexif returns when no IFD
    holds the tag. *)
Record ExifData : Type := mkExifData {
  exif_data_get_entry_MAKER_NOTE : option ExifEntry
}.

(** One "Exif" metadata block of the primary handle: its size, the answer of
    [heif_image_handle_get_metadata], and libexif's decoding of the bytes
    after the 4-byte offset field ([None] is the null pointer). *)
Record metadata_block : Type := mkMetadataBlock {
  get_metadata_size : Z;
  get_metadata : heif_result (list Byte.byte);
  exif_data_new_from_data : option ExifData
}.

(** What libheif makes of the stream. *)
Record heif_context : Type := mkContext {
  context_alloc : bool;
  context_read_from_reader : heif_result unit;
  get_primary_image_handle : heif_result heif_image_handle;
  exif_metadata_blocks : list metadata_block;
  auxiliary_image_handles : list (heif_result heif_image_handle)
}.

(** ** Collaborators: lcms2, OpenEXR and the tev helpers of other files *)

Definition cmsHPROFILE : Type := nat.
Definition cmsHTRANSFORM : Type := nat.

Inductive cms_format : Type :=
| TYPE_RGB_FLT
| TYPE_RGBA_FLT
| TYPE_RGBA_FLT_PREMUL.

(** [Imf::Chromaticities]: red, green, blue and white, each an (x, y) pair. *)
Record Chromaticities : Type := mkChromaticities {
  chroma_red : float * float;
  chroma_green : float * float;
  chroma_blue : float * float;
  chroma_white : float * float
}.

(** [Imath::M44f], by rows. *)
Definition M44f : Type := list (list float).

(** [M.x[m][n]] *)
Definition M44f_x (M : M44f) (m n : Z) : float :=
  nth (Z.to_nat n) (nth (Z.to_nat m) M []) F32.zero.

(** [AppleMakerNote(data, size)] of tev/imageio/AppleMakerNote.h keeps what
    it parses from the entry. *)
Record AppleMakerNote : Type := mkAppleMakerNote {
  amn_data : list Byte.byte;
  amn_size : Z
}.

Record Collaborators : Type := mkCollaborators {
  cmsOpenProfileFromMem : list Byte.byte -> Z -> option cmsHPROFILE;
  (** [cmsCreateRGBProfile] at the D65 white point, the Rec.709 primaries and
      three linear tone curves *)
  cmsCreateRGBProfile : option cmsHPROFILE;
  cmsCreateTransform :
    cmsHPROFILE -> cms_format -> cmsHPROFILE -> cms_format -> option cmsHTRANSFORM;
  (** [cmsDoTransform(transform, in, out, n)]: the [4 * n] floats written *)
  cmsDoTransform : cmsHTRANSFORM -> list float -> Z -> list float;
  (** the default-constructed [Imf::Chromaticities] *)
  Imf_Chromaticities_default : Chromaticities;
  Imf_RGBtoXYZ : Chromaticities -> float -> M44f;
  Imf_XYZtoRGB : Chromaticities -> float -> M44f;
  M44f_mul : M44f -> M44f -> M44f;
  toLinear : float -> float;
  matchesFuzzy : string -> string -> bool;
  isAppleMakernote : list Byte.byte -> Z -> bool;
  applyAppleGainMap : ImageData -> ImageData -> AppleMakerNote -> ImageData
}.

(** Modelled from the spec: [matchesFuzzy] of tev/Common.h is not in this
    file.  The spec has it as a case-sensitive substring match of the
    selector against the layer name. *)
Definition matchesFuzzy_substring (text filter : string) : bool :=
  string_contains filter text.

(** ** Bit-depth normalization *)

(** [1.0f / float((1 << bitsPerPixel) - 1)] *)
Definition channelScale (bitsPerPixel : Z) : float :=
  F32.div F32.one (F32.of_int (Z.shiftl 1 bitsPerPixel - 1)).

(** [(float)typedData[x] * channelScale] *)
Definition normalize_sample (bitsPerPixel : Z) (sample : Z) : float :=
  F32.mul (F32.of_int sample) (channelScale bitsPerPixel).

(** The channels [chs] with sample [(x, y)] of channel [c] set to
    [value c y x], rows first. *)
Definition fill_channels (chs : list Channel) (size : Vector2i)
    (value : Z -> Z -> Z -> float) : list Channel :=
  map (fun cc : Z * Channel =>
         let (c, ch) := cc in
         mkChannel (channel_name ch) (channel_size ch)
           (flat_map (fun y => map (fun x => value c y x) (Zrange (fst size)))
                     (Zrange (snd size))))
      (combine (Zrange (Z.of_nat (length chs))) chs).

(** [numChannels] and the premultiplied-alpha flag [decodeImage] starts
    from. *)
Definition handle_numChannels (imgHandle : heif_image_handle) : Z :=
  if has_alpha_channel imgHandle then 4 else 3.

Definition handle_premultiplied (imgHandle : heif_image_handle) : bool :=
  (handle_numChannels imgHandle =? 4) && is_premultiplied_alpha imgHandle.

Section Loader.

Variable E : Collaborators.

(** The lambda [getCmsTransform] of [decodeImage]. *)
Definition getCmsTransform (imgHandle : heif_image_handle) (numChannels : Z)
    (hasPremultipliedAlpha : bool) : Task (option cmsHTRANSFORM) :=
  let profileSize := get_raw_color_profile_size imgHandle in
  if profileSize =? 0 then ret None
  else
    match get_raw_color_profile imgHandle with
    | heif_Error heif_error_Color_profile_does_not_exist _ => ret None
    | heif_Error _ message =>
        emit (LogWarning ("Failed to read ICC profile: " ++ message)) ;;
        ret None
    | heif_Ok profileData =>
        match cmsOpenProfileFromMem E profileData profileSize with
        | None =>
            emit (LogWarning "Failed to create ICC profile from raw data") ;;
            ret None
        | Some srcProfile =>
            match cmsCreateRGBProfile E with
            | None =>
                emit (LogWarning "Failed to create Rec.709 color profile") ;;
                ret None
            | Some rec709Profile =>
                let type :=
                  if numChannels =? 4
                  then (if hasPremultipliedAlpha
                        then TYPE_RGBA_FLT_PREMUL else TYPE_RGBA_FLT)
                  else TYPE_RGB_FLT in
                match cmsCreateTransform E srcProfile type rec709Profile
                                         TYPE_RGBA_FLT with
                | None =>
                    emit (LogWarning
                      "Failed to create color transform from ICC profile to Rec.709") ;;
                    ret None
                | Some transform => ret (Some transform)
                end
            end
        end
    end.

(** The ICC branch of [decodeImage]: each row is normalized into [src] and
    transformed into the interleaved RGBA buffer of the channels. *)
Definition decodeImage_icc (transform : cmsHTRANSFORM) (size : Vector2i)
    (numChannels bitsPerPixel : Z) (data : list (list Z))
    (chs : list Channel) : Task ImageData :=
  emit (LogDebug "Found ICC color profile.") ;;
  let numPixels := fst size * snd size in
  emit (AllocFloats (numPixels * numChannels)) ;;
  emit (AllocFloats (numPixels * numChannels)) ;;
  let n_samples_per_row := fst size * numChannels in
  let src_row y :=
    map (fun x => normalize_sample bitsPerPixel (plane_sample data y x))
        (Zrange n_samples_per_row) in
  let dst_row y := cmsDoTransform E transform (src_row y) (fst size) in
  ret (mkImageData
         (fill_channels chs size
            (fun c y x => nth (Z.to_nat (4 * x + c)) (dst_row y) F32.zero))
         Matrix4f_identity
         false).

(** The sample loop of the other branch: alpha (channel 3) is only scaled,
    the colour channels are scaled and linearized. *)
Definition decodeImage_linear_channels (size : Vector2i)
    (numChannels bitsPerPixel : Z) (data : list (list Z))
    (chs : list Channel) : list Channel :=
  fill_channels chs size
    (fun c y x =>
       let baseIdx := x * numChannels in
       let v := normalize_sample bitsPerPixel (plane_sample data y (baseIdx + c)) in
       if c =? 3 then v else toLinear E v).

(** The NCLX tail of [decodeImage]. *)
Definition decodeImage_nclx (imgHandle : heif_image_handle)
    (resultData : ImageData) : Task ImageData :=
  match get_nclx_color_profile imgHandle with
  | heif_Error heif_error_Color_profile_does_not_exist _ => ret resultData
  | heif_Error _ message =>
      emit (LogWarning ("Failed to read NCLX profile: " ++ message)) ;;
      ret resultData
  | heif_Ok nclx =>
      emit (LogDebug "Found NCLX color profile.") ;;
      if negb (color_primaries nclx =? heif_color_primaries_ITU_R_BT_709_5)
      then
        let rec709 := Imf_Chromaticities_default E in
        let chroma :=
          mkChromaticities
            (color_primary_red_x nclx, color_primary_red_y nclx)
            (color_primary_green_x nclx, color_primary_green_y nclx)
            (color_primary_blue_x nclx, color_primary_blue_y nclx)
            (color_primary_white_x nclx, color_primary_white_y nclx) in
        let M := M44f_mul E (Imf_RGBtoXYZ E chroma F32.one)
                            (Imf_XYZtoRGB E rec709 F32.one) in
        ret (mkImageData (channels resultData)
               (map (fun m => map (fun n => M44f_x M m n) (Zrange 4)) (Zrange 4))
               (hasPremultipliedAlpha resultData))
      else ret resultData
  end.

(** The lambda [decodeImage] of [load]. *)
Definition decodeImage (imgHandle : heif_image_handle) (targetSize : Vector2i)
    (namePrefix : string) : Task ImageData :=
  let numChannels := handle_numChannels imgHandle in
  let premultiplied := handle_premultiplied imgHandle in
  let size : Vector2i := (get_width imgHandle, get_height imgHandle) in
  if (fst size =? 0) || (snd size =? 0) then throw "Image has zero pixels."
  else
    emit HeifDecodeImage ;;
    match decode_image imgHandle with
    | heif_Error _ message => throw ("Failed to decode image: " ++ message)
    | heif_Ok img =>
        let bitsPerPixel := bits_per_pixel_range img in
        emit HeifGetPlane ;;
        match plane_readonly img with
        | None => throw "Faild to get image data."
        | Some data =>
            emit (MakeNChannels numChannels size namePrefix) ;;
            let chs := makeNChannels numChannels size namePrefix in
            transform <- getCmsTransform imgHandle numChannels premultiplied ;;
            match transform with
            | Some transform =>
                decodeImage_icc transform size numChannels bitsPerPixel data chs
            | None =>
                decodeImage_nclx imgHandle
                  (mkImageData
                     (decodeImage_linear_channels size numChannels bitsPerPixel
                                                  data chs)
                     Matrix4f_identity
                     premultiplied)
            end
        end
    end.

(** The loop of the lambda [findAppleMakerNote] over the EXIF blocks. *)
Fixpoint findAppleMakerNote_blocks (blocks : list metadata_block)
    : Task (option AppleMakerNote) :=
  match blocks with
  | [] => ret None
  | block :: rest =>
      let exifSize := get_metadata_size block in
      if exifSize <=? 4 then
        emit (LogWarning "Failed to get size of EXIF data") ;;
        findAppleMakerNote_blocks rest
      else
        match get_metadata block with
        | heif_Error _ message =>
            emit (LogWarning ("Failed to read EXIF data: " ++ message)) ;;
            findAppleMakerNote_blocks rest
        | heif_Ok exifData =>
            match exif_data_new_from_data block with
            | None =>
                emit (LogWarning "Failed to decode EXIF data") ;;
                findAppleMakerNote_blocks rest
            | Some exif =>
                match exif_data_get_entry_MAKER_NOTE exif with
                | None =>
                    (* [makerNote->data] through a null pointer *)
                    undefined
                | Some makerNote =>
                    if negb (isAppleMakernote E (entry_data makerNote)
                                              (entry_size makerNote))
                    then findAppleMakerNote_blocks rest
                    else ret (Some (mkAppleMakerNote (entry_data makerNote)
                                                     (entry_size makerNote)))
                end
            end
        end
  end.

(** The lambda [findAppleMakerNote] of [load]. *)
Definition findAppleMakerNote (ctx : heif_context)
    : Task (option AppleMakerNote) :=
  let numMetadataBlocks := Z.of_nat (length (exif_metadata_blocks ctx)) in
  if numMetadataBlocks <=? 0 then
    emit (LogWarning "No EXIF metadata found") ;;
    ret None
  else
    (if numMetadataBlocks >? 1 then
       emit (LogDebug ("Found " ++ format_int numMetadataBlocks
                                ++ " EXIF metadata block(s)"))
     else ret tt) ;;
    findAppleMakerNote_blocks (exif_metadata_blocks ctx).

(** The neighbours and the weights [resizeImage] uses at one destination
    pixel. *)
Record resize_taps : Type := mkTaps {
  srcX : float; srcY : float;
  x0 : Z; y0 : Z; x1 : Z; y1 : Z;
  wx0 : float; wx1 : float; wy0 : float; wy1 : float
}.

Definition resizeImage_taps (size targetSize : Vector2i) (dstX dstY : Z)
    : resize_taps :=
  let scaleX := F32.div (F32.of_int (fst size)) (F32.of_int (fst targetSize)) in
  let scaleY := F32.div (F32.of_int (snd size)) (F32.of_int (snd targetSize)) in
  let srcX := F32.sub (F32.mul (F32.add (F32.of_int dstX) F32.half) scaleX)
                      F32.half in
  let srcY := F32.sub (F32.mul (F32.add (F32.of_int dstY) F32.half) scaleY)
                      F32.half in
  let x0 := Z.max (F32.floor_to_int srcX) 0 in
  let y0 := Z.max (F32.floor_to_int srcY) 0 in
  let x1 := Z.min (x0 + 1) (fst size - 1) in
  let y1 := Z.min (y0 + 1) (snd size - 1) in
  let wx1 := F32.sub srcX (F32.of_int x0) in
  let wy1 := F32.sub srcY (F32.of_int y0) in
  let wx0 := F32.sub F32.one wx1 in
  let wy0 := F32.sub F32.one wy1 in
  mkTaps srcX srcY x0 y0 x1 y1 wx0 wx1 wy0 wy1.

(** The value [resizeImage] stores at [(dstX, dstY)] of the channel resampled
    from [src]. *)
Definition resizeImage_pixel (size targetSize : Vector2i) (src : Channel)
    (dstY dstX : Z) : float :=
  let t := resizeImage_taps size targetSize dstX dstY in
  let srcIdx00 := y0 t * fst size + x0 t in
  let srcIdx01 := y0 t * fst size + x1 t in
  let srcIdx10 := y1 t * fst size + x0 t in
  let srcIdx11 := y1 t * fst size + x1 t in
  let p00 := Channel_at src srcIdx00 in
  let p01 := Channel_at src srcIdx01 in
  let p10 := Channel_at src srcIdx10 in
  let p11 := Channel_at src srcIdx11 in
  F32.add
    (F32.mul (wy0 t) (F32.add (F32.mul (wx0 t) p00) (F32.mul (wx1 t) p01)))
    (F32.mul (wy1 t) (F32.add (F32.mul (wx0 t) p10) (F32.mul (wx1 t) p11))).

(** The lambda [resizeImage] of [load]; the image passed by reference is
    the result. *)
Definition resizeImage (resultData : ImageData) (targetSize : Vector2i)
    (namePrefix : string) : Task ImageData :=
  match channels resultData with
  | [] => undefined
  | front :: _ =>
      let size := channel_size front in
      if Vector2i_eqb size targetSize then ret resultData
      else
        let numChannels := Z.of_nat (length (channels resultData)) in
        emit (MakeNChannels numChannels targetSize namePrefix) ;;
        let dstChannels := makeNChannels numChannels targetSize namePrefix in
        let srcChannels := channels resultData in
        ret (mkImageData
               (fill_channels dstChannels targetSize
                  (fun c dstY dstX =>
                     resizeImage_pixel size targetSize
                       (nth (Z.to_nat c) srcChannels (mkChannel "" (0, 0) []))
                       dstY dstX))
               Matrix4f_identity
               (hasPremultipliedAlpha resultData))
  end.

(** The name of an auxiliary layer: its type (or the number of layers when
    the type is null), a period, colons turned into periods. *)
Definition auxLayerName (auxType : option string) (num_aux : Z) : string :=
  string_replace ":" "."
    (match auxType with
     | Some t => t ++ "."
     | None => format_int num_aux ++ "."
     end).

Definition is_apple_gainmap (name : string) : bool :=
  string_contains "apple" name && string_contains "hdrgainmap" name.

(** One iteration of the loop of [load] over the auxiliary images. *)
Definition load_auxiliary (ctx : heif_context) (channelSelector : string)
    (num_aux : Z) (aux : heif_result heif_image_handle)
    (mainImage : ImageData) : Task ImageData :=
  match aux with
  | heif_Error _ message =>
      emit (LogWarning ("Failed to get auxiliary image handle: " ++ message)) ;;
      ret mainImage
  | heif_Ok auxImgHandle =>
      match get_auxiliary_type auxImgHandle with
      | heif_Error _ message =>
          emit (LogWarning ("Failed to get auxiliary image type: " ++ message)) ;;
          ret mainImage
      | heif_Ok auxType =>
          let name := auxLayerName auxType num_aux in
          if negb (matchesFuzzy E name channelSelector) then ret mainImage
          else
            match channels mainImage with
            | [] => undefined
            | front :: _ =>
                let mainSize := channel_size front in
                auxImgData <- decodeImage auxImgHandle mainSize name ;;
                auxImgData <- resizeImage auxImgData mainSize name ;;
                let mainImage :=
                  mkImageData
                    (channels mainImage ++ channels auxImgData)%list
                    (toRec709 mainImage)
                    (hasPremultipliedAlpha mainImage) in
                if is_apple_gainmap name then
                  emit (LogDebug ("Found hdrgainmap: " ++ name)) ;;
                  amn <- findAppleMakerNote ctx ;;
                  match amn with
                  | Some amn =>
                      emit (LogDebug "Found Apple maker note; applying gain map.") ;;
                      emit ApplyAppleGainMap ;;
                      ret (applyAppleGainMap E mainImage auxImgData amn)
                  | None => ret mainImage
                  end
                else ret mainImage
            end
      end
  end.

Fixpoint load_auxiliaries (ctx : heif_context) (channelSelector : string)
    (num_aux : Z) (auxs : list (heif_result heif_image_handle))
    (mainImage : ImageData) : Task ImageData :=
  match auxs with
  | [] => ret mainImage
  | aux :: rest =>
      mainImage <- load_auxiliary ctx channelSelector num_aux aux mainImage ;;
      load_auxiliaries ctx channelSelector num_aux rest mainImage
  end.

(** [HeifImageLoader::load], from the allocation of the libheif context. *)
Definition load (ctx : heif_context) (channelSelector : string)
    : Task (list ImageData) :=
  if negb (context_alloc ctx) then throw "Failed to allocate libheif context."
  else
    match context_read_from_reader ctx with
    | heif_Error _ message => throw ("Failed to read image: " ++ message)
    | heif_Ok _ =>
        match get_primary_image_handle ctx with
        | heif_Error _ message =>
            throw ("Failed to get primary image handle: " ++ message)
        | heif_Ok handle =>
            mainImage <- decodeImage handle (0, 0) "" ;;
            let num_aux := Z.of_nat (length (auxiliary_image_handles ctx)) in
            if num_aux >? 0 then
              emit (LogDebug ("Found " ++ format_int num_aux
                                       ++ " auxiliary image(s)")) ;;
              mainImage <- load_auxiliaries ctx channelSelector num_aux
                             (auxiliary_image_handles ctx) mainImage ;;
              ret [mainImage]
            else ret [mainImage]
        end
    end.

End Loader.

(** ** Concrete collaborators and files *)

Module Sample.

(** Stand-ins for the collaborators: lcms2 accepts every non-empty profile
    and its transform copies the samples, the selector is the substring
    match, a maker note is Apple's when it starts with the bytes of
    ["Apple iOS"], and fusion leaves the primary image as it is. *)
Definition apple_signature : list Byte.byte := list_byte_of_string "Apple iOS".

Definition bytes_prefix (p l : list Byte.byte) : bool :=
  if list_eq_dec Byte.byte_eq_dec p (firstn (length p) l) then true else false.

Definition collaborators : Collaborators :=
  mkCollaborators
    (fun profile size => if size =? 0 then None else Some 1%nat)
    (Some 2%nat)
    (fun _ _ _ _ => Some 3%nat)
    (fun _ src _ => src)
    (mkChromaticities (F32.zero, F32.zero) (F32.zero, F32.zero)
                      (F32.zero, F32.zero) (F32.zero, F32.zero))
    (fun _ _ => Matrix4f_identity)
    (fun _ _ => Matrix4f_identity)
    (fun a _ => a)
    (fun v => v)
    matchesFuzzy_substring
    (fun data _ => bytes_prefix apple_signature data)
    (fun primary _ _ => primary).

(** A 2x1 plane of 10-bit RGB samples: black, then full scale. *)
Definition plane_2x1 : heif_image :=
  mkHeifImage 10 (Some [[0; 0; 0; 1023; 1023; 1023]]).

(** A 4x1 plane of 10-bit RGB samples. *)
Definition plane_4x1 : heif_image :=
  mkHeifImage 10
    (Some [[0; 0; 0; 341; 341; 341; 682; 682; 682; 1023; 1023; 1023]]).

Definition no_profile {A : Type} : heif_result A :=
  heif_Error heif_error_Color_profile_does_not_exist "no color profile".

(** The primary image: 4x1, no alpha, no colour profile. *)
Definition primary_handle : heif_image_handle :=
  mkHandle false false 4 1 (heif_Ok plane_4x1) 0 no_profile no_profile
           (heif_Ok None).

Definition gainmap_type : string := "urn:com:apple:photo:2020:aux:hdrgainmap".

(** An Apple HDR gain map at half the width of the primary image. *)
Definition gainmap_handle : heif_image_handle :=
  mkHandle false false 2 1 (heif_Ok plane_2x1) 0 no_profile no_profile
           (heif_Ok (Some gainmap_type)).

(** An auxiliary image of no width. *)
Definition empty_handle : heif_image_handle :=
  mkHandle false false 0 1 (heif_Ok plane_2x1) 0 no_profile no_profile
           (heif_Ok (Some "urn:mpeg:hevc:2015:auxid:2")).

(** An image with alpha, marked premultiplied, that embeds an ICC profile. *)
Definition icc_handle : heif_image_handle :=
  mkHandle true true 1 1
           (heif_Ok (mkHeifImage 10 (Some [[1023; 0; 0; 1023]])))
           3 (heif_Ok [Byte.x00; Byte.x00; Byte.x00]) no_profile
           (heif_Ok None).

Definition exif_bytes : list Byte.byte :=
  [Byte.x00; Byte.x00; Byte.x00; Byte.x06; Byte.x45; Byte.x78; Byte.x69;
   Byte.x66; Byte.x00; Byte.x00].

(** An EXIF block with Apple's maker note. *)
Definition exif_apple : metadata_block :=
  mkMetadataBlock 10 (heif_Ok exif_bytes)
    (Some (mkExifData (Some (mkExifEntry apple_signature 9)))).

(** An EXIF block that decodes and holds no maker note. *)
Definition exif_plain : metadata_block :=
  mkMetadataBlock 10 (heif_Ok exif_bytes) (Some (mkExifData None)).

Definition file (blocks : list metadata_block)
    (auxs : list (heif_result heif_image_handle)) : heif_context :=
  mkContext true (heif_Ok tt) (heif_Ok primary_handle) blocks auxs.

(** A 2x1 image of three channels, each [0, 1]. *)
Definition image_2x1 : ImageData :=
  mkImageData
    (map (fun c => mkChannel c (2, 1) [F32.zero; F32.one]) ["R"; "G"; "B"])
    Matrix4f_identity false.

(** The floats [-0.25], [0.25], [0.75] and [1.25]. *)
Definition minus_quarter : float :=
  Eval vm_compute in F32.div (F32.of_int (-1)) (F32.of_int 4).
Definition quarter : float :=
  Eval vm_compute in F32.div (F32.of_int 1) (F32.of_int 4).
Definition three_quarters : float :=
  Eval vm_compute in F32.div (F32.of_int 3) (F32.of_int 4).
Definition five_quarters : float :=
  Eval vm_compute in F32.div (F32.of_int 5) (F32.of_int 4).

(** What [resizeImage] makes of [image_2x1] at 4x1. *)
Definition image_2x1_at_4x1 : ImageData :=
  mkImageData
    (map (fun c => mkChannel c (4, 1)
                     [minus_quarter; quarter; three_quarters; F32.one])
         ["aux.R"; "aux.G"; "aux.B"])
    Matrix4f_identity false.

(** A primary image: 4x1, three channels. *)
Definition primary_image : ImageData :=
  mkImageData
    (map (fun c => mkChannel c (4, 1)
                     [F32.zero; quarter; three_quarters; F32.one])
         ["R"; "G"; "B"])
    Matrix4f_identity false.

(** An auxiliary image whose handle libheif does not give. *)
Definition missing_aux : heif_result heif_image_handle :=
  heif_Error (heif_error_other 2) "Non-existing item".

(** A file with Apple's maker note and Apple's gain map. *)
Definition gainmap_file : heif_context :=
  file [exif_apple] [heif_Ok gainmap_handle].

(** The same file with an EXIF block that holds no maker note. *)
Definition plain_exif_file : heif_context :=
  file [exif_plain] [heif_Ok gainmap_handle].

(** A file whose first auxiliary image libheif gives no handle for. *)
Definition missing_aux_file : heif_context :=
  file [exif_apple] [missing_aux; heif_Ok gainmap_handle].

(** A file whose first auxiliary image has no width. *)
Definition empty_aux_file : heif_context :=
  file [exif_apple] [heif_Ok empty_handle; heif_Ok gainmap_handle].

End Sample.

(** ** Observations on traces and checkers *)

Definition is_fusion (e : event) : bool :=
  match e with
  | ApplyAppleGainMap => true
  | _ => false
  end.

(** How many times gain-map fusion was invoked. *)
Definition fusions (tr : list event) : nat := length (filter is_fusion tr).

(** A computation that never invokes fusion. *)
Definition quiet {A : Type} (m : Task A) : Prop :=
  forall tr : list event, fusions (snd (m tr)) = fusions tr.

(** The warning for an auxiliary image whose handle or type libheif does
    not give. *)
Definition aux_unavailable (aux : heif_result heif_image_handle)
    : option string :=
  match aux with
  | heif_Error _ message =>
      Some ("Failed to get auxiliary image handle: " ++ message)
  | heif_Ok auxImgHandle =>
      match get_auxiliary_type auxImgHandle with
      | heif_Error _ message =>
          Some ("Failed to get auxiliary image type: " ++ message)
      | heif_Ok _ => None
      end
  end.

(** An EXIF block [findAppleMakerNote] passes over: too short, unreadable,
    undecodable, or with a maker note that is not Apple's. *)
Definition block_passed_over (E : Collaborators) (block : metadata_block)
    : bool :=
  (get_metadata_size block <=? 4) ||
  match get_metadata block with
  | heif_Error _ _ => true
  | heif_Ok _ =>
      match exif_data_new_from_data block with
      | None => true
      | Some exif =>
          match exif_data_get_entry_MAKER_NOTE exif with
          | None => false
          | Some makerNote =>
              negb (isAppleMakernote E (entry_data makerNote)
                                       (entry_size makerNote))
          end
      end
  end.

(** The rule as the specification words it, for one file and selector:
    when the load returns, fusion has been invoked if and only if some
    auxiliary layer is named as an Apple gain map and the maker note is
    found in the EXIF blocks of the primary image. *)
Definition fusion_rule_as_specified (E : Collaborators) (ctx : heif_context)
    (channelSelector : string) : Prop :=
  forall (result : list ImageData) (tr : list event),
    load E ctx channelSelector [] = (Ok result, tr) ->
    (0 < fusions tr)%nat <->
    (exists (auxImgHandle : heif_image_handle) (auxType : option string),
        In (heif_Ok auxImgHandle) (auxiliary_image_handles ctx) /\
        get_auxiliary_type auxImgHandle = heif_Ok auxType /\
        is_apple_gainmap
          (auxLayerName auxType
             (Z.of_nat (length (auxiliary_image_handles ctx)))) = true) /\
    (exists (amn : AppleMakerNote) (tr' : list event),
        findAppleMakerNote E ctx [] = (Ok (Some amn), tr')).

(** [p] holds at [v], [v + 1], ..., [v + n - 1]. *)
Fixpoint all_from (n : nat) (v : Z) (p : Z -> bool) : bool :=
  match n with
  | O => true
  | S k => p v && all_from k (v + 1) p
  end.

(** A sample scaled by [scale] is within one part in [2^23] of
    [sample / x]: the product is a float [m * 2^e] with [e < 0] and
    [|m * x - sample * 2^-e| * 2^23 <= sample * 2^-e]. *)
Definition normalize_close_with (scale : float) (x sample : Z) : bool :=
  match F32.mul (F32.of_int sample) scale with
  | S754_zero _ => sample =? 0
  | S754_finite false m e =>
      (e <? 0) &&
      (Z.abs (Z.pos m * x - Z.shiftl sample (- e)) * 2 ^ 23
       <=? Z.shiftl sample (- e))
  | _ => false
  end.

(** ** The reader [load] hands to libheif *)

(** The sentry of an unformatted input function: on a stream that is not
    good it sets [failbit]. *)
Definition stream_sentry (s : istream) : istream :=
  if good s then s
  else mkStream (stream_bytes s) (stream_pos s) (eofbit s) true (badbit s)
                (stream_gcount s).

(** [stream.tellg()]: [-1] on a failed stream, the get position otherwise. *)
Definition stream_tellg (s : istream) : Z * istream :=
  let s1 := stream_sentry s in
  if fail s1 then (-1, s1) else (Z.of_nat (stream_pos s1), s1).

(** [stream.seekg(0, ios_base::end)]: clears [eofbit] and, unless the stream
    has failed, moves the get position behind the last byte. *)
Definition stream_seekg_end (s : istream) : istream :=
  let s1 := stream_sentry
              (mkStream (stream_bytes s) (stream_pos s) false
                        (failbit s) (badbit s) (stream_gcount s)) in
  if fail s1 then s1
  else mkStream (stream_bytes s) (length (stream_bytes s)) false
                (failbit s1) (badbit s1) (stream_gcount s).

(** [stream.seekg(pos)] for an [int64_t]: there is no position below 0. *)
Definition stream_seekg_pos (pos : Z) (s : istream) : istream :=
  if 0 <=? pos then stream_seekg (Z.to_nat pos) s
  else
    let s1 := mkStream (stream_bytes s) (stream_pos s) false
                       (failbit s) (badbit s) (stream_gcount s) in
    if fail s1 then s1
    else mkStream (stream_bytes s) (stream_pos s) false true (badbit s)
                  (stream_gcount s).

(** The first statements of [load]: the size of the file, found by seeking
    to the end, and the stream cleared and rewound. *)
Definition load_file_size (iStream : istream) : Z * istream :=
  let s1 := stream_seekg_end iStream in
  let '(fileSize, s2) := stream_tellg s1 in
  let s3 := stream_clear s2 in
  (fileSize, stream_seekg 0 s3).

Inductive heif_reader_grow_status : Type :=
| heif_reader_grow_status_size_reached
| heif_reader_grow_status_timeout
| heif_reader_grow_status_size_beyond_eof.

(** [reader.get_position] *)
Definition reader_get_position (stream : istream) : Z * istream :=
  stream_tellg stream.

(** [reader.read]: the bytes stored in the buffer, and 0 or -1. *)
Definition reader_read (size : Z) (stream : istream)
    : (Z * list Byte.byte) * istream :=
  let '(data, s) := stream_read (Z.to_nat size) stream in
  ((if good s then 0 else -1, data), s).

(** [reader.seek] *)
Definition reader_seek (pos : Z) (stream : istream) : Z * istream :=
  let s := stream_seekg_pos pos stream in
  (if good s then 0 else -1, s).

(** [reader.wait_for_file_size] *)
Definition reader_wait_for_file_size (size target_size : Z)
    : heif_reader_grow_status :=
  if size <? target_size then heif_reader_grow_status_size_beyond_eof
  else heif_reader_grow_status_size_reached.

(** A call of libheif on the reader, and the number it gets back (the
    position, or 0 or -1). *)
Inductive reader_call : Type :=
| call_get_position
| call_read (size : Z)
| call_seek (pos : Z).

Definition reader_step (c : reader_call) (stream : istream) : Z * istream :=
  match c with
  | call_get_position => reader_get_position stream
  | call_read size =>
      let '(r, s) := reader_read size stream in (fst r, s)
  | call_seek pos => reader_seek pos stream
  end.

Fixpoint reader_steps (cs : list reader_call) (stream : istream)
    : list Z * istream :=
  match cs with
  | [] => ([], stream)
  | c :: rest =>
      let '(r, s) := reader_step c stream in
      let '(rs, s') := reader_steps rest s in
      (r :: rs, s')
  end.

(** ** Handles that differ in one answer *)

(** The handle with no ICC profile. *)
Definition without_profile (h : heif_image_handle) : heif_image_handle :=
  mkHandle (has_alpha_channel h) (is_premultiplied_alpha h)
           (get_width h) (get_height h) (decode_image h)
           0 (get_raw_color_profile h) (get_nclx_color_profile h)
           (get_auxiliary_type h).

(** The handle with another answer to [get_nclx_color_profile]. *)
Definition with_nclx (h : heif_image_handle)
    (nclx : heif_result heif_color_profile_nclx) : heif_image_handle :=
  mkHandle (has_alpha_channel h) (is_premultiplied_alpha h)
           (get_width h) (get_height h) (decode_image h)
           (get_raw_color_profile_size h) (get_raw_color_profile h) nclx
           (get_auxiliary_type h).

(** The transform [getCmsTransform] finds for a handle in [decodeImage]. *)
Definition found_transform (E : Collaborators) (h : heif_image_handle)
    : outcome (option cmsHTRANSFORM) :=
  fst (getCmsTransform E h (handle_numChannels h) (handle_premultiplied h) []).

(** The warnings of the auxiliary images libheif gives no handle or type
    for, in order. *)
Definition unavailable_warnings (auxs : list (heif_result heif_image_handle))
    : list event :=
  flat_map (fun aux => match aux_unavailable aux with
                       | Some warning => [LogWarning warning]
                       | None => []
                       end) auxs.

(** An auxiliary image the loop of [load] passes over: libheif gives no
    handle or no type for it, or the selector does not match its name. *)
Definition aux_skipped (E : Collaborators) (channelSelector : string)
    (num_aux : Z) (aux : heif_result heif_image_handle) : bool :=
  match aux with
  | heif_Error _ _ => true
  | heif_Ok auxImgHandle =>
      match get_auxiliary_type auxImgHandle with
      | heif_Error _ _ => true
      | heif_Ok auxType =>
          negb (matchesFuzzy E (auxLayerName auxType num_aux) channelSelector)
      end
  end.

(** A computation after which fusion has been invoked at least as often as
    before. *)
Definition counting {A : Type} (m : Task A) : Prop :=
  forall tr : list event, (fusions tr <= fusions (snd (m tr)))%nat.

(** Every channel has the given size and as many samples as pixels. *)
Definition channel_shaped (size : Vector2i) (c : Channel) : Prop :=
  channel_size c = size /\
  length (channel_data c) = (Z.to_nat (snd size) * Z.to_nat (fst size))%nat.

Module SampleStream.

(** Sixteen bytes: an [ftyp] box header and filler. *)
Definition bytes : list Byte.byte :=
  [Byte.x00; Byte.x00; Byte.x00; Byte.x18; Byte.x66; Byte.x74; Byte.x79;
   Byte.x70; Byte.x68; Byte.x65; Byte.x69; Byte.x63; Byte.x00; Byte.x00;
   Byte.x00; Byte.x00].

(** A fresh stream over them. *)
Definition fresh : istream := mkStream bytes 0 false false false 0.

(** libheif's check: an [ftyp] box of brand [heic]. *)
Definition check (header : list Byte.byte) (len : Z) : heif_filetype_result :=
  if list_eq_dec Byte.byte_eq_dec (firstn 8 (skipn 4 header))
       [Byte.x66; Byte.x74; Byte.x79; Byte.x70; Byte.x68; Byte.x65;
        Byte.x69; Byte.x63]
  then heif_filetype_yes_supported else heif_filetype_no.

End SampleStream.

Module SampleHandles.

(** A 2x1 RGB image whose ICC profile libheif cannot read. *)
Definition unreadable_profile : heif_image_handle :=
  mkHandle false false 2 1 (heif_Ok Sample.plane_2x1)
           3 (heif_Error (heif_error_other 5) "Invalid input")
           Sample.no_profile (heif_Ok None).

(** A 2x1 image that libheif cannot decode. *)
Definition undecodable : heif_image_handle :=
  mkHandle false false 2 1
           (heif_Error (heif_error_other 7) "Decoder plugin error")
           0 Sample.no_profile Sample.no_profile (heif_Ok None).

(** A 2x1 image that decodes to no plane. *)
Definition no_plane : heif_image_handle :=
  mkHandle false false 2 1 (heif_Ok (mkHeifImage 10 None))
           0 Sample.no_profile Sample.no_profile (heif_Ok None).

(** A 1x1 image with alpha, marked premultiplied, with no profile: red at
    full scale, alpha at half scale (12 bits). *)
Definition premultiplied : heif_image_handle :=
  mkHandle true true 1 1
           (heif_Ok (mkHeifImage 12 (Some [[4095; 0; 0; 2048]])))
           0 Sample.no_profile Sample.no_profile (heif_Ok None).

(** Display P3 primaries, as an NCLX profile of tag 12. *)
Definition nclx_p3 : heif_color_profile_nclx :=
  mkNclx 12
    (F32.div (F32.of_int 680) (F32.of_int 1000))
    (F32.div (F32.of_int 320) (F32.of_int 1000))
    (F32.div (F32.of_int 265) (F32.of_int 1000))
    (F32.div (F32.of_int 690) (F32.of_int 1000))
    (F32.div (F32.of_int 150) (F32.of_int 1000))
    (F32.div (F32.of_int 60) (F32.of_int 1000))
    (F32.div (F32.of_int 3127) (F32.of_int 10000))
    (F32.div (F32.of_int 3290) (F32.of_int 10000)).

(** An EXIF block too short to hold anything. *)
Definition exif_short : metadata_block :=
  mkMetadataBlock 4 (heif_Ok []) None.

(** An EXIF block with the maker note of another vendor. *)
Definition exif_other_vendor : metadata_block :=
  mkMetadataBlock 10 (heif_Ok Sample.exif_bytes)
    (Some (mkExifData
             (Some (mkExifEntry (list_byte_of_string "Nikon") 5)))).

(** A depth map of the size of the primary image of [Sample]. *)
Definition depth : heif_image_handle :=
  mkHandle false false 4 1 (heif_Ok Sample.plane_4x1) 0
           Sample.no_profile Sample.no_profile
           (heif_Ok (Some "urn:mpeg:hevc:2015:auxid:2")).

End SampleHandles.

(** ** The stream after [canLoadFile] *)

Lemma stream_seekg_0_clear (s : istream) :
  stream_seekg 0 (stream_clear s) =
  mkStream (stream_bytes s) 0 false false false (stream_gcount s).
Proof.
  unfold stream_seekg, stream_clear, fail. simpl. reflexivity.
Qed.

Lemma stream_read_bytes (n : nat) (s : istream) :
  stream_bytes (snd (stream_read n s)) = stream_bytes s.
Proof.
  unfold stream_read. destruct (good s); reflexivity.
Qed.

(** C10: whatever the stream and whatever libheif answers, [canLoadFile]
    returns with the three state bits clear and the get position at 0, over
    the same bytes; with fewer than 12 bytes readable it answers [false],
    and otherwise it answers whether libheif supports the 12-byte header. *)
Theorem canLoadFile_restores_stream :
  forall (check : list Byte.byte -> Z -> heif_filetype_result) (s : istream),
    let r := canLoadFile check s in
    let avail := skipn (stream_pos s) (stream_bytes s) in
    eofbit (snd r) = false /\ failbit (snd r) = false /\
    badbit (snd r) = false /\ stream_pos (snd r) = 0%nat /\
    stream_bytes (snd r) = stream_bytes s /\
    (good s = false \/ (length avail < 12)%nat -> fst r = false) /\
    (good s = true /\ (12 <= length avail)%nat ->
     fst r = heif_filetype_result_eqb (check (firstn 12 avail) 12)
                                      heif_filetype_yes_supported).
Proof.
  intros check s r avail. subst r. unfold canLoadFile.
  rewrite (surjective_pairing (stream_read 12 s)).
  cbv beta iota. rewrite stream_seekg_0_clear.
  rewrite stream_read_bytes.
  unfold stream_read. fold avail.
  remember (firstn 12 avail) as got eqn:Hgot.
  assert (Hlen : length got = Nat.min 12 (length avail))
    by (subst got; apply length_firstn).
  destruct (good s) eqn:Hgood; cbn [fst snd stream_gcount failbit badbit fail].
  - unfold good in Hgood.
    apply andb_prop in Hgood as [Hgood Hbad].
    apply andb_prop in Hgood as [Heof Hfail].
    apply negb_true_iff in Hfail, Hbad. rewrite Hfail, Hbad.
    destruct (Nat.ltb (length got) 12) eqn:Hshort.
    + assert (Hlt : (length got < 12)%nat) by (apply Nat.ltb_lt; exact Hshort).
      cbn [orb fst snd eofbit failbit badbit stream_pos stream_bytes].
      repeat split; auto. intros [_ H]. lia.
    + assert (Hnlt : (12 <= length got)%nat) by (apply Nat.ltb_ge; exact Hshort).
      assert (Heq : length got = 12%nat) by lia.
      rewrite Heq.
      cbn [orb negb Nat.eqb fst snd eofbit failbit badbit stream_pos stream_bytes].
      repeat split; auto. intros [H|H]; [discriminate | lia].
  - cbn [orb fst snd eofbit failbit badbit stream_pos stream_bytes].
    repeat split; auto. intros [H _]. discriminate.
Qed.

(** ** Laws of [Task] *)

Lemma bind_ok {A B : Type} (m : Task A) (k : A -> Task B) tr a tr' :
  m tr = (Ok a, tr') -> bind m k tr = k a tr'.
Proof. intros H. unfold bind. rewrite H. reflexivity. Qed.

Lemma bind_throw {A B : Type} (m : Task A) (k : A -> Task B) tr what tr' :
  m tr = (Throw what, tr') -> bind m k tr = (Throw what, tr').
Proof. intros H. unfold bind. rewrite H. reflexivity. Qed.

Lemma bind_undefined {A B : Type} (m : Task A) (k : A -> Task B) tr tr' :
  m tr = (Undefined, tr') -> bind m k tr = (Undefined, tr').
Proof. intros H. unfold bind. rewrite H. reflexivity. Qed.

Lemma bind_emit {B : Type} (e : event) (k : unit -> Task B) tr :
  bind (emit e) k tr = k tt (tr ++ [e])%list.
Proof. reflexivity. Qed.

Lemma bind_ret {A B : Type} (a : A) (k : A -> Task B) tr :
  bind (ret a) k tr = k a tr.
Proof. reflexivity. Qed.

Lemma bind_assoc {A B C : Type} (m : Task A) (k : A -> Task B)
    (k' : B -> Task C) tr :
  bind (bind m k) k' tr = bind m (fun a => bind (k a) k') tr.
Proof.
  unfold bind. destruct (m tr) as [[a | what |] tr']; reflexivity.
Qed.

Lemma bind_ext {A B : Type} (m : Task A) (k k' : A -> Task B) tr :
  (forall a tr', k a tr' = k' a tr') -> bind m k tr = bind m k' tr.
Proof.
  intros H. unfold bind. destruct (m tr) as [[a | what |] tr'];
    [apply H | reflexivity | reflexivity].
Qed.

Lemma bind_run {A B : Type} (m m' : Task A) (k : A -> Task B) tr :
  m tr = m' tr -> bind m k tr = bind m' k tr.
Proof. intros H. unfold bind. rewrite H. reflexivity. Qed.

(** ** Channels filled sample by sample *)

Lemma Zrange_length (n : Z) : length (Zrange n) = Z.to_nat n.
Proof. unfold Zrange. rewrite length_map, length_seq. reflexivity. Qed.

Lemma Zrange_nth (n : Z) (i : nat) (d : Z) :
  (i < Z.to_nat n)%nat -> nth i (Zrange n) d = Z.of_nat i.
Proof.
  intros Hi. unfold Zrange.
  rewrite (nth_indep _ d (Z.of_nat 0)) by (rewrite length_map, length_seq; exact Hi).
  rewrite map_nth, seq_nth by exact Hi. reflexivity.
Qed.

Lemma nth_flat_map_rows {A : Type} (f : Z -> list A) (w : nat) (d : A) :
  (forall y : Z, length (f y) = w) ->
  forall (rows : list Z) (i x : nat),
    (i < length rows)%nat -> (x < w)%nat ->
    nth (i * w + x) (flat_map f rows) d = nth x (f (nth i rows 0)) d.
Proof.
  intros Hlen rows. induction rows as [| row rows IH]; intros i x Hi Hx.
  - cbn in Hi. lia.
  - cbn [flat_map]. destruct i as [| i].
    + cbn [Nat.mul Nat.add nth]. apply app_nth1. rewrite Hlen. exact Hx.
    + rewrite app_nth2 by (rewrite Hlen; lia).
      rewrite Hlen. cbn [nth].
      replace (S i * w + x - w)%nat with (i * w + x)%nat by lia.
      apply IH; [cbn in Hi; lia | exact Hx].
Qed.

Lemma fill_channels_at (chs : list Channel) (w h : Z)
    (value : Z -> Z -> Z -> float) (c : nat) (y x : Z) (d : Channel) :
  (c < length chs)%nat -> 0 <= x < w -> 0 <= y < h ->
  Channel_at (nth c (fill_channels chs (w, h) value) d) (y * w + x)
  = value (Z.of_nat c) y x.
Proof.
  intros Hc Hx Hy. unfold fill_channels. cbn [fst snd].
  set (F := fun cc : Z * Channel =>
              let (c0, ch) := cc in
              mkChannel (channel_name ch) (channel_size ch)
                (flat_map (fun y0 => map (fun x0 => value c0 y0 x0) (Zrange w))
                          (Zrange h))).
  assert (Hlen : length (combine (Zrange (Z.of_nat (length chs))) chs)
                 = length chs).
  { rewrite length_combine, Zrange_length, Nat2Z.id. lia. }
  rewrite (nth_indep _ d (F (0, d))) by (rewrite length_map, Hlen; exact Hc).
  rewrite map_nth.
  rewrite combine_nth by (rewrite Zrange_length, Nat2Z.id; reflexivity).
  rewrite Zrange_nth by (rewrite Nat2Z.id; exact Hc).
  unfold F, Channel_at. cbn [channel_data].
  replace (Z.to_nat (y * w + x))
    with (Z.to_nat y * Z.to_nat w + Z.to_nat x)%nat by nia.
  rewrite (nth_flat_map_rows _ (Z.to_nat w)).
  - rewrite Zrange_nth by lia. rewrite Z2Nat.id by lia.
    rewrite (nth_indep _ F32.zero (value (Z.of_nat c) y 0))
      by (rewrite length_map, Zrange_length; lia).
    rewrite map_nth, Zrange_nth by lia. rewrite Z2Nat.id by lia. reflexivity.
  - intros y0. rewrite length_map, Zrange_length. reflexivity.
  - rewrite Zrange_length. lia.
  - lia.
Qed.

Lemma makeNChannels_length (numChannels : Z) (size : Vector2i)
    (namePrefix : string) :
  length (makeNChannels numChannels size namePrefix) = Z.to_nat numChannels.
Proof.
  unfold makeNChannels. rewrite length_map, Zrange_length. reflexivity.
Qed.

(** The sample loop of [decodeImage] stores the normalized sample in the
    alpha channel and the linearized normalized sample in the others. *)
Lemma decodeImage_linear_channels_at (E : Collaborators) (w h : Z)
    (numChannels bitsPerPixel : Z) (data : list (list Z))
    (namePrefix : string) (c : nat) (y x : Z) (d : Channel) :
  (c < Z.to_nat numChannels)%nat -> 0 <= x < w -> 0 <= y < h ->
  Channel_at
    (nth c (decodeImage_linear_channels E (w, h) numChannels bitsPerPixel data
              (makeNChannels numChannels (w, h) namePrefix)) d)
    (y * w + x)
  = let v := normalize_sample bitsPerPixel
               (plane_sample data y (x * numChannels + Z.of_nat c)) in
    if Z.of_nat c =? 3 then v else toLinear E v.
Proof.
  intros Hc Hx Hy. unfold decodeImage_linear_channels.
  rewrite fill_channels_at; [reflexivity | | exact Hx | exact Hy].
  rewrite makeNChannels_length. exact Hc.
Qed.

(** ** [decodeImage] *)

(** C7: an image handle of width 0 or height 0 makes [decodeImage] throw
    "Image has zero pixels." with the trace as it was: libheif has not been
    asked to decode or for the plane, and no channel or float buffer has
    been made. *)
Theorem decodeImage_zero_area_throws :
  forall (E : Collaborators) (imgHandle : heif_image_handle)
         (targetSize : Vector2i) (namePrefix : string) (tr : list event),
    get_width imgHandle = 0 \/ get_height imgHandle = 0 ->
    decodeImage E imgHandle targetSize namePrefix tr
    = (Throw "Image has zero pixels.", tr).
Proof.
  intros E h targetSize namePrefix tr H.
  unfold decodeImage. cbn [fst snd].
  assert (Hz : (get_width h =? 0) || (get_height h =? 0) = true).
  { destruct H as [H | H]; rewrite H; cbn; auto using orb_true_r. }
  rewrite Hz. reflexivity.
Qed.

Lemma decodeImage_zero_area_throws_witness :
  (get_width Sample.empty_handle = 0 \/ get_height Sample.empty_handle = 0) /\
  decodeImage Sample.collaborators Sample.empty_handle (4, 1) "aux." []
  = (Throw "Image has zero pixels.", []).
Proof.
  split.
  - left. reflexivity.
  - apply (decodeImage_zero_area_throws Sample.collaborators
             Sample.empty_handle (4, 1) "aux." []).
    left. reflexivity.
Defined.

(** The outcome of [getCmsTransform] does not depend on the trace it starts
    from, and it only extends it. *)
Lemma getCmsTransform_trace (E : Collaborators) (h : heif_image_handle)
    (n : Z) (p : bool) (tr : list event) :
  getCmsTransform E h n p tr
  = (fst (getCmsTransform E h n p []),
     (tr ++ snd (getCmsTransform E h n p []))%list).
Proof.
  unfold getCmsTransform.
  destruct (get_raw_color_profile_size h =? 0).
  { cbn. rewrite app_nil_r. reflexivity. }
  destruct (get_raw_color_profile h) as [profileData | [| code] message].
  - destruct (cmsOpenProfileFromMem E profileData _) as [src |].
    + destruct (cmsCreateRGBProfile E) as [dst |].
      * destruct (cmsCreateTransform E src _ dst TYPE_RGBA_FLT); cbn;
          rewrite ?app_nil_r; reflexivity.
      * cbn. reflexivity.
    + cbn. reflexivity.
  - cbn. rewrite app_nil_r. reflexivity.
  - cbn. reflexivity.
Qed.

(** C4: when [getCmsTransform] finds a transform for a handle whose image
    decodes, [decodeImage] returns an image whose [hasPremultipliedAlpha] is
    false, whatever the container says about premultiplication. *)
Theorem decodeImage_icc_clears_premultiplied :
  forall (E : Collaborators) (imgHandle : heif_image_handle)
         (targetSize : Vector2i) (namePrefix : string) (tr : list event)
         (img : heif_image) (data : list (list Z)) (transform : cmsHTRANSFORM),
    get_width imgHandle <> 0 ->
    get_height imgHandle <> 0 ->
    decode_image imgHandle = heif_Ok img ->
    plane_readonly img = Some data ->
    fst (getCmsTransform E imgHandle (handle_numChannels imgHandle)
                         (handle_premultiplied imgHandle) [])
    = Ok (Some transform) ->
    exists (resultData : ImageData) (tr' : list event),
      decodeImage E imgHandle targetSize namePrefix tr = (Ok resultData, tr')
      /\ hasPremultipliedAlpha resultData = false.
Proof.
  intros E h targetSize namePrefix tr img data transform Hw Hh Hdec Hplane Hcms.
  unfold decodeImage. cbn [fst snd].
  apply Z.eqb_neq in Hw, Hh. rewrite Hw, Hh. cbn [orb].
  rewrite bind_emit, Hdec, bind_emit, Hplane, bind_emit.
  unfold bind at 1. rewrite getCmsTransform_trace, Hcms.
  unfold decodeImage_icc.
  rewrite !bind_emit. unfold ret.
  eexists. eexists. split; reflexivity.
Qed.

Lemma decodeImage_icc_clears_premultiplied_witness :
  is_premultiplied_alpha Sample.icc_handle = true /\
  exists (resultData : ImageData) (tr' : list event),
    decodeImage Sample.collaborators Sample.icc_handle (0, 0) "" []
    = (Ok resultData, tr')
    /\ hasPremultipliedAlpha resultData = false.
Proof.
  split.
  - reflexivity.
  - apply (decodeImage_icc_clears_premultiplied Sample.collaborators
             Sample.icc_handle (0, 0) "" []
             (mkHeifImage 10 (Some [[1023; 0; 0; 1023]]))
             [[1023; 0; 0; 1023]] 3%nat).
    + discriminate.
    + discriminate.
    + reflexivity.
    + reflexivity.
    + reflexivity.
Defined.

(** ** [resizeImage] *)

Lemma Vector2i_eqb_refl (v : Vector2i) : Vector2i_eqb v v = true.
Proof.
  unfold Vector2i_eqb. rewrite !Z.eqb_refl. reflexivity.
Qed.

(** C9: resampling an image to the resolution it already has returns the
    very same image (channels, matrix and flag) and leaves the trace as it
    was, so no channel has been made. *)
Theorem resizeImage_same_size_identity :
  forall (resultData : ImageData) (front : Channel) (rest : list Channel)
         (targetSize : Vector2i) (namePrefix : string) (tr : list event),
    channels resultData = front :: rest ->
    channel_size front = targetSize ->
    resizeImage resultData targetSize namePrefix tr = (Ok resultData, tr).
Proof.
  intros resultData front rest targetSize namePrefix tr Hch Hsize.
  unfold resizeImage. rewrite Hch, Hsize, Vector2i_eqb_refl. reflexivity.
Qed.

Lemma resizeImage_same_size_identity_witness :
  resizeImage Sample.image_2x1 (2, 1) "aux." [] = (Ok Sample.image_2x1, []).
Proof.
  apply (resizeImage_same_size_identity Sample.image_2x1
           (mkChannel "R" (2, 1) [F32.zero; F32.one])
           [mkChannel "G" (2, 1) [F32.zero; F32.one];
            mkChannel "B" (2, 1) [F32.zero; F32.one]]
           (2, 1) "aux." []).
  - reflexivity.
  - reflexivity.
Defined.

(** ** Bit-depth normalization *)

Lemma all_from_spec (n : nat) (p : Z -> bool) :
  forall v : Z,
    all_from n v p = true ->
    forall x : Z, v <= x < v + Z.of_nat n -> p x = true.
Proof.
  induction n as [| n IH]; intros v H x Hx.
  - lia.
  - cbn [all_from] in H. apply andb_prop in H as [Hv Hrest].
    destruct (Z.eq_dec x v) as [-> | Hne]; [exact Hv |].
    apply (IH (v + 1) Hrest). lia.
Qed.

Lemma Qabs_frac (d : Z) (p : positive) (v : Z) (t : positive) :
  Z.abs d * Z.pos t <= v * Z.pos p ->
  (Qabs (inject_Z d / inject_Z (Z.pos p)) <= inject_Z v / inject_Z (Z.pos t))%Q.
Proof.
  intros H.
  unfold Qdiv, Qinv, inject_Z, Qmult, Qabs, Qle. cbn.
  rewrite ?Z.mul_1_r, ?Pos.mul_1_l. exact H.
Qed.

Lemma normalize_close_with_sound (scale : float) (x sample : Z) :
  normalize_close_with scale x sample = true ->
  (Qabs (F32.to_Q (F32.mul (F32.of_int sample) scale) * inject_Z x
         - inject_Z sample)
   <= inject_Z sample / inject_Z (2 ^ 23))%Q.
Proof.
  unfold normalize_close_with.
  destruct (F32.mul (F32.of_int sample) scale) as [s | s | | [|] m e];
    try discriminate.
  - intros H. apply Z.eqb_eq in H. subst sample. cbn. discriminate.
  - intros H. apply andb_prop in H as [He H].
    apply Z.ltb_lt in He. apply Z.leb_le in H.
    destruct e as [| p | p]; try lia.
    change (- Z.neg p) with (Z.pos p) in H.
    rewrite Z.shiftl_mul_pow2 in H by lia.
    rewrite <- Pos2Z.inj_pow in H.
    change (2 ^ 23) with (Z.pos (2 ^ 23)) in *.
    apply (Qabs_frac _ (2 ^ p) sample (2 ^ 23)) in H.
    eapply Qle_trans; [| exact H].
    apply Qle_lteq. right. apply Qabs_wd.
    unfold F32.to_Q.
    change (Qpower (2 # 1) (Z.neg p)) with (/ Qpower (2 # 1) (Z.pos p))%Q.
    rewrite <- (Zpower_Qpower 2 (Z.pos p)) by lia.
    rewrite <- Pos2Z.inj_pow.
    unfold Z.sub. rewrite inject_Z_plus, inject_Z_opp, !inject_Z_mult.
    field. discriminate.
Qed.

(** One bit depth: the two end points by evaluation, the samples in between
    by running the checker over all of them. *)
Ltac normalize_depth b :=
  split; [vm_compute; reflexivity |];
  split; [vm_compute; reflexivity |];
  let c := eval vm_compute in (channelScale b) in
  intros sample Hsample; unfold normalize_sample;
  replace (channelScale b) with c by (vm_compute; reflexivity);
  apply normalize_close_with_sound;
  apply (all_from_spec (Z.to_nat (2 ^ b)) (normalize_close_with c (2 ^ b - 1)) 0);
  [vm_compute; reflexivity | lia].

(** C8: at every bit depth from 1 to 16, the full-scale sample
    [2^B - 1] is normalized to exactly [1.0f] and the sample 0 to exactly
    [0.0f]; every sample in between is normalized to within one part in
    [2^23] of [sample / (2^B - 1)]. *)
Theorem normalize_sample_full_scale :
  forall bitsPerPixel : Z,
    1 <= bitsPerPixel <= 16 ->
    normalize_sample bitsPerPixel (2 ^ bitsPerPixel - 1) = F32.one /\
    normalize_sample bitsPerPixel 0 = F32.zero /\
    forall sample : Z,
      0 <= sample <= 2 ^ bitsPerPixel - 1 ->
      (Qabs (F32.to_Q (normalize_sample bitsPerPixel sample)
             * inject_Z (2 ^ bitsPerPixel - 1) - inject_Z sample)
       <= inject_Z sample / inject_Z (2 ^ 23))%Q.
Proof.
  intros b Hb.
  assert (Hcases : b = 1 \/ b = 2 \/ b = 3 \/ b = 4 \/ b = 5 \/ b = 6 \/
                   b = 7 \/ b = 8 \/ b = 9 \/ b = 10 \/ b = 11 \/ b = 12 \/
                   b = 13 \/ b = 14 \/ b = 15 \/ b = 16) by lia.
  clear Hb.
  repeat (destruct Hcases as [-> | Hcases];
          [match goal with
           | |- normalize_sample ?b _ = _ /\ _ => normalize_depth b
           end |]).
  subst b. normalize_depth 16.
Qed.

Lemma normalize_sample_full_scale_witness :
  1 <= 10 <= 16 /\
  normalize_sample 10 1023 = F32.one /\ normalize_sample 10 0 = F32.zero.
Proof.
  split; [lia |].
  destruct (normalize_sample_full_scale 10 ltac:(lia)) as [Hmax [Hzero _]].
  split; [exact Hmax | exact Hzero].
Defined.

(** ** The taps of [resizeImage] *)

(** The neighbour indices are clamped to the source: never below 0 and,
    for a source of positive size, never above the last row or column. *)
Lemma resizeImage_taps_clamped (size targetSize : Vector2i) (dstX dstY : Z) :
  0 < fst size -> 0 < snd size ->
  let t := resizeImage_taps size targetSize dstX dstY in
  0 <= x0 t /\ x1 t <= fst size - 1 /\ 0 <= x1 t /\
  0 <= y0 t /\ y1 t <= snd size - 1 /\ 0 <= y1 t.
Proof.
  intros Hx Hy. unfold resizeImage_taps. cbn [x0 x1 y0 y1]. lia.
Qed.

(** At another resolution, [resizeImage] makes new channels and stores at
    every destination pixel of every channel the value interpolated from
    the channel of the same position. *)
Lemma resizeImage_resamples (resultData : ImageData) (front : Channel)
    (rest : list Channel) (targetSize : Vector2i) (namePrefix : string)
    (tr : list event) :
  channels resultData = front :: rest ->
  Vector2i_eqb (channel_size front) targetSize = false ->
  exists scaled : ImageData,
    resizeImage resultData targetSize namePrefix tr
    = (Ok scaled,
       (tr ++ [MakeNChannels (Z.of_nat (length (channels resultData)))
                             targetSize namePrefix])%list)
    /\ hasPremultipliedAlpha scaled = hasPremultipliedAlpha resultData
    /\ forall (c : nat) (dstX dstY : Z) (d d' : Channel),
         (c < length (channels resultData))%nat ->
         0 <= dstX < fst targetSize -> 0 <= dstY < snd targetSize ->
         Channel_at (nth c (channels scaled) d) (dstY * fst targetSize + dstX)
         = resizeImage_pixel (channel_size front) targetSize
             (nth c (channels resultData) d') dstY dstX.
Proof.
  intros Hch Hne. unfold resizeImage. rewrite Hch, Hne, bind_emit.
  unfold ret. eexists. split; [reflexivity |]. split; [reflexivity |].
  intros c dstX dstY d d' Hc Hx Hy. cbn [channels].
  destruct targetSize as [tw th]. cbn [fst snd] in *.
  rewrite fill_channels_at;
    [| rewrite makeNChannels_length, Nat2Z.id; exact Hc
     | exact Hx | exact Hy].
  rewrite Nat2Z.id. f_equal. apply nth_indep. exact Hc.
Qed.

(** C3: resampling the 2x1 image [0, 1] to 4x1.  At the first destination
    pixel the source coordinate is [-0.25], below 0 and not clamped; the
    neighbours are 0 and 1 with the weights [1.25] and [-0.25], outside
    [0, 1]; and the value stored is [-0.25], below both source samples.
    The whole row comes out as [-0.25, 0.25, 0.75, 1]. *)
Theorem resizeImage_left_edge_extrapolates :
  let t := resizeImage_taps (2, 1) (4, 1) 0 0 in
  srcX t = Sample.minus_quarter /\
  x0 t = 0 /\ x1 t = 1 /\
  wx0 t = Sample.five_quarters /\ wx1 t = Sample.minus_quarter /\
  F32.ltb (wx1 t) F32.zero = true /\ F32.ltb F32.one (wx0 t) = true /\
  resizeImage Sample.image_2x1 (4, 1) "aux." []
  = (Ok Sample.image_2x1_at_4x1, [MakeNChannels 3 (4, 1) "aux."]).
Proof.
  vm_compute. repeat split; reflexivity.
Qed.

(** ** [findAppleMakerNote] *)

Lemma fusions_snoc (tr : list event) (e : event) :
  fusions (tr ++ [e]) = (fusions tr + (if is_fusion e then 1 else 0))%nat.
Proof.
  unfold fusions. rewrite filter_app, length_app. cbn [filter].
  destruct (is_fusion e); reflexivity.
Qed.

(** A block that decodes and holds no maker note stops the search in
    undefined behaviour, whatever follows it. *)
Lemma findAppleMakerNote_blocks_null_entry (E : Collaborators)
    (block : metadata_block) (rest : list metadata_block)
    (exifData : list Byte.byte) (tr : list event) :
  4 < get_metadata_size block ->
  get_metadata block = heif_Ok exifData ->
  exif_data_new_from_data block = Some (mkExifData None) ->
  findAppleMakerNote_blocks E (block :: rest) tr = (Undefined, tr).
Proof.
  intros Hsize Hmeta Hexif. cbn [findAppleMakerNote_blocks].
  apply Z.leb_gt in Hsize. rewrite Hsize, Hmeta, Hexif. reflexivity.
Qed.

(** Over blocks that are all too short, unreadable, undecodable or not
    Apple's, the search ends without a maker note. *)
Lemma findAppleMakerNote_blocks_none (E : Collaborators)
    (blocks : list metadata_block) :
  forallb (block_passed_over E) blocks = true ->
  forall tr : list event,
    exists tr' : list event,
      findAppleMakerNote_blocks E blocks tr = (Ok None, tr').
Proof.
  induction blocks as [| block rest IH]; intros Hall tr.
  - exists tr. reflexivity.
  - cbn [forallb] in Hall. apply andb_prop in Hall as [Hblock Hrest].
    specialize (IH Hrest). cbn [findAppleMakerNote_blocks].
    unfold block_passed_over in Hblock.
    destruct (get_metadata_size block <=? 4).
    { rewrite bind_emit. apply IH. }
    cbn [orb] in Hblock.
    destruct (get_metadata block) as [exifData | code message].
    2: { rewrite bind_emit. apply IH. }
    destruct (exif_data_new_from_data block) as [exif |].
    2: { rewrite bind_emit. apply IH. }
    destruct (exif_data_get_entry_MAKER_NOTE exif) as [makerNote |];
      [| discriminate].
    rewrite Hblock. apply IH.
Qed.

(** C6: the file with Apple's gain map and one EXIF block that decodes and
    holds no maker note.  The load decodes and resamples the gain map, goes
    looking for the maker note and reads through the null entry: it ends in
    undefined behaviour, before any channel is returned. *)
Theorem load_exif_without_maker_note_undefined :
  load Sample.collaborators Sample.plain_exif_file "" []
  = (Undefined,
     [HeifDecodeImage; HeifGetPlane; MakeNChannels 3 (4, 1) "";
      LogDebug "Found 1 auxiliary image(s)";
      HeifDecodeImage; HeifGetPlane;
      MakeNChannels 3 (2, 1) "urn.com.apple.photo.2020.aux.hdrgainmap.";
      MakeNChannels 3 (4, 1) "urn.com.apple.photo.2020.aux.hdrgainmap.";
      LogDebug "Found hdrgainmap: urn.com.apple.photo.2020.aux.hdrgainmap."]).
Proof.
  vm_compute. reflexivity.
Qed.

(** ** Which steps invoke fusion *)

Lemma quiet_ret {A : Type} (a : A) : quiet (ret a).
Proof. intros tr. reflexivity. Qed.

Lemma quiet_throw {A : Type} (what : string) : quiet (@throw A what).
Proof. intros tr. reflexivity. Qed.

Lemma quiet_undefined {A : Type} : quiet (@undefined A).
Proof. intros tr. reflexivity. Qed.

Lemma quiet_emit (e : event) : is_fusion e = false -> quiet (emit e).
Proof.
  intros He tr. unfold emit. cbn [snd]. rewrite fusions_snoc, He. lia.
Qed.

Lemma quiet_bind {A B : Type} (m : Task A) (k : A -> Task B) :
  quiet m -> (forall a : A, quiet (k a)) -> quiet (bind m k).
Proof.
  intros Hm Hk tr. unfold bind. specialize (Hm tr).
  destruct (m tr) as [[a | what |] tr']; cbn [snd] in *.
  - rewrite (Hk a tr'). exact Hm.
  - exact Hm.
  - exact Hm.
Qed.

Create HintDb quiet.
#[local] Hint Resolve quiet_ret quiet_throw quiet_undefined : quiet.

Ltac quiet_step :=
  match goal with
  | |- quiet (emit _) => apply quiet_emit; reflexivity
  | |- quiet (bind _ _) => apply quiet_bind; [| intros ?]
  | |- quiet (match ?x with _ => _ end) => destruct x
  | |- quiet _ => solve [auto with quiet]
  end.

Lemma getCmsTransform_quiet (E : Collaborators) (h : heif_image_handle)
    (n : Z) (p : bool) :
  quiet (getCmsTransform E h n p).
Proof.
  unfold getCmsTransform. cbv zeta. repeat quiet_step.
Qed.

#[local] Hint Resolve getCmsTransform_quiet : quiet.

Lemma decodeImage_quiet (E : Collaborators) (h : heif_image_handle)
    (targetSize : Vector2i) (namePrefix : string) :
  quiet (decodeImage E h targetSize namePrefix).
Proof.
  unfold decodeImage, decodeImage_icc, decodeImage_nclx. cbv zeta.
  repeat quiet_step.
Qed.

Lemma resizeImage_quiet (resultData : ImageData) (targetSize : Vector2i)
    (namePrefix : string) :
  quiet (resizeImage resultData targetSize namePrefix).
Proof.
  unfold resizeImage. cbv zeta. repeat quiet_step.
Qed.

Lemma findAppleMakerNote_blocks_quiet (E : Collaborators)
    (blocks : list metadata_block) :
  quiet (findAppleMakerNote_blocks E blocks).
Proof.
  induction blocks as [| block rest IH]; cbn [findAppleMakerNote_blocks].
  - apply quiet_ret.
  - cbv zeta. repeat quiet_step; exact IH.
Qed.

#[local] Hint Resolve findAppleMakerNote_blocks_quiet : quiet.

Lemma findAppleMakerNote_quiet (E : Collaborators) (ctx : heif_context) :
  quiet (findAppleMakerNote E ctx).
Proof.
  unfold findAppleMakerNote. cbv zeta. repeat quiet_step.
Qed.

Lemma quiet_run {A : Type} (m : Task A) (tr tr' : list event) (o : outcome A) :
  quiet m -> m tr = (o, tr') -> fusions tr' = fusions tr.
Proof.
  intros Hq Hrun. specialize (Hq tr). rewrite Hrun in Hq. exact Hq.
Qed.

(** ** The loop over the auxiliary images *)

(** A layer the selector does not match is passed over: nothing is decoded,
    nothing appended, nothing logged. *)
Lemma load_auxiliary_not_selected (E : Collaborators) (ctx : heif_context)
    (channelSelector : string) (num_aux : Z) (h : heif_image_handle)
    (auxType : option string) (mainImage : ImageData) (tr : list event) :
  get_auxiliary_type h = heif_Ok auxType ->
  matchesFuzzy E (auxLayerName auxType num_aux) channelSelector = false ->
  load_auxiliary E ctx channelSelector num_aux (heif_Ok h) mainImage tr
  = (Ok mainImage, tr).
Proof.
  intros Htype Hsel. unfold load_auxiliary. rewrite Htype. cbv zeta.
  rewrite Hsel. reflexivity.
Qed.

(** C1: one auxiliary layer whose type libheif gives.  When the selector
    does not match its name, the layer is passed over: the primary image and
    the trace stay as they were.  When the selector matches and the layer
    decodes and resamples, its channels are appended to the primary image,
    and fusion is invoked exactly once if its name contains "apple" and
    "hdrgainmap" and [findAppleMakerNote] returns a maker note, and not at
    all otherwise. *)
Theorem load_auxiliary_fusion_rule :
  forall (E : Collaborators) (ctx : heif_context) (channelSelector : string)
         (num_aux : Z) (h : heif_image_handle) (auxType : option string)
         (mainImage : ImageData) (tr : list event),
    get_auxiliary_type h = heif_Ok auxType ->
    let name := auxLayerName auxType num_aux in
    let step := load_auxiliary E ctx channelSelector num_aux (heif_Ok h)
                               mainImage tr in
    (matchesFuzzy E name channelSelector = false -> step = (Ok mainImage, tr))
    /\
    (matchesFuzzy E name channelSelector = true ->
     forall (front : Channel) (rest : list Channel)
            (aux1 aux2 : ImageData) (tr1 tr2 : list event),
       channels mainImage = front :: rest ->
       decodeImage E h (channel_size front) name tr = (Ok aux1, tr1) ->
       resizeImage aux1 (channel_size front) name tr1 = (Ok aux2, tr2) ->
       let appended :=
         mkImageData (channels mainImage ++ channels aux2)%list
                     (toRec709 mainImage)
                     (hasPremultipliedAlpha mainImage) in
       (is_apple_gainmap name = false ->
        step = (Ok appended, tr2) /\ fusions tr2 = fusions tr)
       /\
       (is_apple_gainmap name = true ->
        forall (found : option AppleMakerNote) (tr3 : list event),
          findAppleMakerNote E ctx
            (tr2 ++ [LogDebug ("Found hdrgainmap: " ++ name)])%list
          = (Ok found, tr3) ->
          match found with
          | Some amn =>
              exists tr' : list event,
                step = (Ok (applyAppleGainMap E appended aux2 amn), tr')
                /\ fusions tr' = S (fusions tr)
          | None => step = (Ok appended, tr3) /\ fusions tr3 = fusions tr
          end)).
Proof.
  intros E ctx sel num_aux h auxType mainImage tr Htype name step.
  split.
  - intros Hsel. subst step name.
    apply (load_auxiliary_not_selected E ctx sel num_aux h auxType);
      assumption.
  - intros Hsel front rest aux1 aux2 tr1 tr2 Hch Hdecode Hresize appended.
    assert (Hq2 : fusions tr2 = fusions tr).
    { rewrite (quiet_run _ _ _ _ (resizeImage_quiet _ _ _) Hresize).
      apply (quiet_run _ _ _ _ (decodeImage_quiet _ _ _ _) Hdecode). }
    assert (Hstep :
      step =
      (if is_apple_gainmap name then
         emit (LogDebug ("Found hdrgainmap: " ++ name)) ;;
         amn <- findAppleMakerNote E ctx ;;
         match amn with
         | Some amn =>
             emit (LogDebug "Found Apple maker note; applying gain map.") ;;
             emit ApplyAppleGainMap ;;
             ret (applyAppleGainMap E appended aux2 amn)
         | None => ret appended
         end
       else ret appended) tr2).
    { subst step appended. unfold load_auxiliary. rewrite Htype. cbv zeta.
      fold name. rewrite Hsel, Hch. cbn [negb].
      rewrite (bind_ok _ _ _ _ _ Hdecode), (bind_ok _ _ _ _ _ Hresize).
      reflexivity. }
    split.
    + intros Hgm. rewrite Hstep, Hgm. split; [reflexivity | exact Hq2].
    + intros Hgm found tr3 Hfind. rewrite Hstep, Hgm, bind_emit.
      rewrite (bind_ok _ _ _ _ _ Hfind).
      assert (Hq3 : fusions tr3 = fusions tr).
      { rewrite (quiet_run _ _ _ _ (findAppleMakerNote_quiet _ _) Hfind).
        rewrite fusions_snoc. cbn [is_fusion]. lia. }
      destruct found as [amn |].
      * rewrite !bind_emit. unfold ret. eexists. split; [reflexivity |].
        rewrite !fusions_snoc. cbn [is_fusion]. lia.
      * split; [reflexivity | exact Hq3].
Qed.

Lemma load_auxiliary_fusion_rule_witness :
  get_auxiliary_type Sample.gainmap_handle = heif_Ok (Some Sample.gainmap_type)
  /\
  exists (mainImage' : ImageData) (tr' : list event),
    load_auxiliary Sample.collaborators Sample.gainmap_file "" 1
                   (heif_Ok Sample.gainmap_handle) Sample.primary_image []
    = (Ok mainImage', tr')
    /\ fusions tr' = 1%nat.
Proof.
  split; [reflexivity |].
  destruct (load_auxiliary_fusion_rule Sample.collaborators
              Sample.gainmap_file "" 1 Sample.gainmap_handle
              (Some Sample.gainmap_type) Sample.primary_image [] eq_refl)
    as [_ Hselected].
  edestruct (Hselected eq_refl) as [_ Hgainmap].
  - reflexivity.
  - vm_compute. reflexivity.
  - vm_compute. reflexivity.
  - specialize (Hgainmap eq_refl
                  (Some (mkAppleMakerNote Sample.apple_signature 9))).
    edestruct Hgainmap as [tr' [Hstep Hfusions]].
    + vm_compute. reflexivity.
    + eexists. exists tr'. split; [exact Hstep | exact Hfusions].
Defined.

(** C1, as the specification words it, fails on the file with Apple's gain
    map and Apple's maker note when the selector is "color": the layer is
    named as a gain map and the maker note is found, and the load returns
    without fusion. *)
Lemma fusion_rule_as_specified_counterexample :
  ~ fusion_rule_as_specified Sample.collaborators Sample.gainmap_file "color".
Proof.
  intros Hrule.
  destruct (load Sample.collaborators Sample.gainmap_file "color" [])
    as [o tr] eqn:Hload.
  pose proof Hload as Hval. vm_compute in Hval. injection Hval as Ho Htr.
  rewrite <- Ho in Hload.
  destruct (Hrule _ _ Hload) as [_ Hback].
  assert (Hpos : (0 < fusions tr)%nat).
  { apply Hback. split.
    - exists Sample.gainmap_handle, (Some Sample.gainmap_type).
      split; [left; reflexivity |]. split; reflexivity.
    - eexists. eexists. vm_compute. reflexivity. }
  rewrite <- Htr in Hpos. vm_compute in Hpos. lia.
Qed.

Lemma load_auxiliaries_app (E : Collaborators) (ctx : heif_context)
    (channelSelector : string) (num_aux : Z)
    (pre post : list (heif_result heif_image_handle)) :
  forall (mainImage : ImageData) (tr : list event),
    load_auxiliaries E ctx channelSelector num_aux (pre ++ post) mainImage tr
    = (mainImage' <- load_auxiliaries E ctx channelSelector num_aux pre
                                      mainImage ;;
       load_auxiliaries E ctx channelSelector num_aux post mainImage') tr.
Proof.
  induction pre as [| aux pre IH]; intros mainImage tr.
  - reflexivity.
  - cbn [app load_auxiliaries]. rewrite bind_assoc.
    apply bind_ext. intros m tr'. apply IH.
Qed.

(** An auxiliary image whose handle or type libheif does not give costs one
    warning and leaves the primary image as it is. *)
Lemma load_auxiliary_unavailable (E : Collaborators) (ctx : heif_context)
    (channelSelector : string) (num_aux : Z)
    (aux : heif_result heif_image_handle) (warning : string)
    (mainImage : ImageData) (tr : list event) :
  aux_unavailable aux = Some warning ->
  load_auxiliary E ctx channelSelector num_aux aux mainImage tr
  = (Ok mainImage, (tr ++ [LogWarning warning])%list).
Proof.
  unfold aux_unavailable, load_auxiliary.
  destruct aux as [h | code message].
  - destruct (get_auxiliary_type h) as [auxType | code message].
    + discriminate.
    + intros H. injection H as <-. reflexivity.
  - intros H. injection H as <-. reflexivity.
Qed.

(** In the loop, an image whose handle or type libheif does not give is
    skipped with a warning, and the images before and after it are
    processed as they are without it. *)
Lemma load_auxiliaries_unavailable (E : Collaborators) (ctx : heif_context)
    (channelSelector : string) (num_aux : Z)
    (pre post : list (heif_result heif_image_handle))
    (aux : heif_result heif_image_handle) (warning : string)
    (mainImage : ImageData) (tr : list event) :
  aux_unavailable aux = Some warning ->
  load_auxiliaries E ctx channelSelector num_aux (pre ++ aux :: post)
                   mainImage tr
  = (mainImage' <- load_auxiliaries E ctx channelSelector num_aux pre
                                    mainImage ;;
     emit (LogWarning warning) ;;
     load_auxiliaries E ctx channelSelector num_aux post mainImage') tr.
Proof.
  intros Hwarn. rewrite load_auxiliaries_app.
  apply bind_ext. intros m tr1.
  cbn [load_auxiliaries].
  rewrite (bind_ok _ _ _ _ _
             (load_auxiliary_unavailable E ctx channelSelector num_aux aux
                                         warning m tr1 Hwarn)).
  rewrite bind_emit. reflexivity.
Qed.

(** In the loop, an image the selector matches and [decodeImage] throws on
    ends the loop with that exception. *)
Lemma load_auxiliaries_throw (E : Collaborators) (ctx : heif_context)
    (channelSelector : string) (num_aux : Z)
    (pre post : list (heif_result heif_image_handle))
    (h : heif_image_handle) (auxType : option string)
    (mainImage mainImage' : ImageData) (tr tr' tr'' : list event)
    (front : Channel) (rest : list Channel) (what : string) :
  get_auxiliary_type h = heif_Ok auxType ->
  matchesFuzzy E (auxLayerName auxType num_aux) channelSelector = true ->
  load_auxiliaries E ctx channelSelector num_aux pre mainImage tr
  = (Ok mainImage', tr') ->
  channels mainImage' = front :: rest ->
  decodeImage E h (channel_size front) (auxLayerName auxType num_aux) tr'
  = (Throw what, tr'') ->
  load_auxiliaries E ctx channelSelector num_aux (pre ++ heif_Ok h :: post)
                   mainImage tr
  = (Throw what, tr'').
Proof.
  intros Htype Hsel Hpre Hch Hdec.
  rewrite load_auxiliaries_app, (bind_ok _ _ _ _ _ Hpre).
  cbn [load_auxiliaries]. apply bind_throw.
  unfold load_auxiliary. rewrite Htype. cbv zeta. rewrite Hsel, Hch.
  cbn [negb]. apply bind_throw. exact Hdec.
Qed.

(** C5: a load whose primary image decodes, at one of its auxiliary images.
    If libheif does not give the handle or the type of that image, it is
    skipped with a warning: the load is the loop over the images before it,
    the warning, and the loop over the images after it.  If the selector
    matches the image and [decodeImage] throws on it (no pixels, a decoding
    error, no plane), the load ends with that exception. *)
Theorem load_auxiliary_failure_policy :
  forall (E : Collaborators) (ctx : heif_context) (channelSelector : string)
         (handle : heif_image_handle)
         (pre post : list (heif_result heif_image_handle))
         (aux : heif_result heif_image_handle)
         (mainImage : ImageData) (tr tr0 : list event),
    context_alloc ctx = true ->
    context_read_from_reader ctx = heif_Ok tt ->
    get_primary_image_handle ctx = heif_Ok handle ->
    auxiliary_image_handles ctx = (pre ++ aux :: post)%list ->
    decodeImage E handle (0, 0) "" tr = (Ok mainImage, tr0) ->
    let num_aux := Z.of_nat (length (pre ++ aux :: post)) in
    let tr1 :=
      (tr0 ++ [LogDebug ("Found " ++ format_int num_aux
                                  ++ " auxiliary image(s)")])%list in
    (forall warning : string,
        aux_unavailable aux = Some warning ->
        load E ctx channelSelector tr
        = (m <- load_auxiliaries E ctx channelSelector num_aux pre mainImage ;;
           emit (LogWarning warning) ;;
           m <- load_auxiliaries E ctx channelSelector num_aux post m ;;
           ret [m]) tr1)
    /\
    (forall (h : heif_image_handle) (auxType : option string)
            (mainImage' : ImageData) (tr' tr'' : list event)
            (front : Channel) (rest : list Channel) (what : string),
        aux = heif_Ok h ->
        get_auxiliary_type h = heif_Ok auxType ->
        matchesFuzzy E (auxLayerName auxType num_aux) channelSelector = true ->
        load_auxiliaries E ctx channelSelector num_aux pre mainImage tr1
        = (Ok mainImage', tr') ->
        channels mainImage' = front :: rest ->
        decodeImage E h (channel_size front) (auxLayerName auxType num_aux) tr'
        = (Throw what, tr'') ->
        load E ctx channelSelector tr = (Throw what, tr'')).
Proof.
  intros E ctx sel handle pre post aux mainImage tr tr0
         Halloc Hread Hprimary Hauxs Hdecode num_aux tr1.
  assert (Hload :
    load E ctx sel tr
    = (m <- load_auxiliaries E ctx sel num_aux (pre ++ aux :: post)
                             mainImage ;;
       ret [m]) tr1).
  { unfold load. rewrite Halloc, Hread, Hprimary. cbn [negb].
    rewrite (bind_ok _ _ _ _ _ Hdecode). cbv zeta. rewrite Hauxs.
    fold num_aux.
    assert (Hpos : (num_aux >? 0) = true).
    { subst num_aux. rewrite length_app. cbn [length]. apply Z.gtb_lt. lia. }
    rewrite Hpos, bind_emit. reflexivity. }
  split.
  - intros warning Hwarn. rewrite Hload.
    rewrite (bind_run _ _ _ _
               (load_auxiliaries_unavailable E ctx sel num_aux pre post aux
                                             warning mainImage tr1 Hwarn)).
    rewrite bind_assoc. apply bind_ext. intros m tr2.
    rewrite bind_assoc. reflexivity.
  - intros h auxType m tr' tr'' front rest what -> Htype Hsel Hpre Hch Hdec.
    rewrite Hload. apply bind_throw.
    apply (load_auxiliaries_throw E ctx sel num_aux pre post h auxType
                                  mainImage m tr1 tr' tr'' front rest what);
      assumption.
Qed.

Lemma load_auxiliary_failure_policy_witness :
  (aux_unavailable Sample.missing_aux
   = Some "Failed to get auxiliary image handle: Non-existing item" /\
   exists (result : list ImageData) (tr : list event),
     load Sample.collaborators Sample.missing_aux_file "" [] = (Ok result, tr)
     /\ In (LogWarning "Failed to get auxiliary image handle: Non-existing item")
           tr
     /\ fusions tr = 1%nat)
  /\
  (get_width Sample.empty_handle = 0 /\
   exists tr : list event,
     load Sample.collaborators Sample.empty_aux_file "" []
     = (Throw "Image has zero pixels.", tr)).
Proof.
  split.
  - split; [reflexivity |].
    edestruct (load_auxiliary_failure_policy Sample.collaborators
                 Sample.missing_aux_file "" Sample.primary_handle
                 [] [heif_Ok Sample.gainmap_handle] Sample.missing_aux)
      as [Hskip _].
    + reflexivity.
    + reflexivity.
    + reflexivity.
    + reflexivity.
    + vm_compute. reflexivity.
    + eexists. eexists. split.
      * rewrite (Hskip _ eq_refl). vm_compute. reflexivity.
      * split; [vm_compute; tauto | vm_compute; reflexivity].
  - split; [reflexivity |].
    edestruct (load_auxiliary_failure_policy Sample.collaborators
                 Sample.empty_aux_file "" Sample.primary_handle
                 [] [heif_Ok Sample.gainmap_handle]
                 (heif_Ok Sample.empty_handle))
      as [_ Hthrow].
    + reflexivity.
    + reflexivity.
    + reflexivity.
    + reflexivity.
    + vm_compute. reflexivity.
    + eexists.
      eapply (Hthrow Sample.empty_handle (Some "urn:mpeg:hevc:2015:auxid:2")).
      * reflexivity.
      * reflexivity.
      * reflexivity.
      * vm_compute. reflexivity.
      * reflexivity.
      * vm_compute. reflexivity.
Defined.

(** C5, as the specification words it, fails on the file whose first
    auxiliary image has no width: the load does not skip that image and
    return the primary image, it ends with the exception of [decodeImage]. *)
Lemma load_empty_auxiliary_counterexample :
  get_width Sample.empty_handle = 0 /\
  load Sample.collaborators Sample.empty_aux_file "" []
  = (Throw "Image has zero pixels.",
     [HeifDecodeImage; HeifGetPlane; MakeNChannels 3 (4, 1) "";
      LogDebug "Found 2 auxiliary image(s)"]).
Proof.
  split; vm_compute; reflexivity.
Qed.

(** ** The matrix to the working space *)

(** On the branch without an ICC transform, the matrix of the result is the
    identity when libheif gives no NCLX profile or one whose primaries are
    tagged BT.709, and otherwise the product of OpenEXR's [RGBtoXYZ] of the
    embedded chromaticities and [XYZtoRGB] of the default ones, copied entry
    by entry. *)
Lemma decodeImage_nclx_matrix (E : Collaborators) (h : heif_image_handle)
    (resultData : ImageData) (tr : list event) :
  toRec709 resultData = Matrix4f_identity ->
  exists (r : ImageData) (tr' : list event),
    decodeImage_nclx E h resultData tr = (Ok r, tr') /\
    channels r = channels resultData /\
    hasPremultipliedAlpha r = hasPremultipliedAlpha resultData /\
    toRec709 r =
    match get_nclx_color_profile h with
    | heif_Error _ _ => Matrix4f_identity
    | heif_Ok nclx =>
        if color_primaries nclx =? heif_color_primaries_ITU_R_BT_709_5
        then Matrix4f_identity
        else
          let M :=
            M44f_mul E
              (Imf_RGBtoXYZ E
                 (mkChromaticities
                    (color_primary_red_x nclx, color_primary_red_y nclx)
                    (color_primary_green_x nclx, color_primary_green_y nclx)
                    (color_primary_blue_x nclx, color_primary_blue_y nclx)
                    (color_primary_white_x nclx, color_primary_white_y nclx))
                 F32.one)
              (Imf_XYZtoRGB E (Imf_Chromaticities_default E) F32.one) in
          map (fun m => map (fun n => M44f_x M m n) (Zrange 4)) (Zrange 4)
    end.
Proof.
  intros Hid. unfold decodeImage_nclx.
  destruct (get_nclx_color_profile h) as [nclx | [| code] message].
  - rewrite bind_emit.
    destruct (color_primaries nclx =? heif_color_primaries_ITU_R_BT_709_5);
      cbn [negb]; unfold ret; eexists; eexists;
      repeat split; try reflexivity; exact Hid.
  - unfold ret. eexists. eexists. repeat split; try reflexivity; exact Hid.
  - rewrite bind_emit. unfold ret. eexists. eexists.
    repeat split; try reflexivity; exact Hid.
Qed.

(** ** The size probe and the reader of [load] *)

Lemma load_file_size_spec (s : istream) :
  load_file_size s
  = (if fail s then -1 else Z.of_nat (length (stream_bytes s)),
     mkStream (stream_bytes s) 0 false false false (stream_gcount s)).
Proof.
  destruct s as [bytes pos eof failb bad gc]. unfold load_file_size.
  unfold stream_seekg_end, stream_sentry, good, fail.
  cbn [stream_bytes stream_pos eofbit failbit badbit stream_gcount negb andb].
  destruct failb, bad; reflexivity.
Qed.

(** X1: the first statements of [load] leave every stream cleared and
    rewound over the same bytes; the size they find is the number of bytes
    of the stream, or -1 when the stream had failed before. *)
Theorem load_file_size_probe :
  forall s : istream,
    let r := load_file_size s in
    good (snd r) = true /\ stream_pos (snd r) = 0%nat /\
    stream_bytes (snd r) = stream_bytes s /\
    fst r = (if fail s then -1 else Z.of_nat (length (stream_bytes s))).
Proof.
  intros s r. subst r. rewrite load_file_size_spec. cbn. auto.
Qed.

(** X2: after the probe of a stream that had not failed, libheif is told
    that a size is reached exactly when it is at most the number of bytes of
    the stream, and that it is beyond the end otherwise. *)
Theorem reader_wait_for_file_size_reached :
  forall (s : istream) (target_size : Z),
    fail s = false ->
    (reader_wait_for_file_size (fst (load_file_size s)) target_size
     = heif_reader_grow_status_size_reached
     <-> target_size <= Z.of_nat (length (stream_bytes s))) /\
    (reader_wait_for_file_size (fst (load_file_size s)) target_size
     = heif_reader_grow_status_size_beyond_eof
     <-> Z.of_nat (length (stream_bytes s)) < target_size).
Proof.
  intros s target Hfail.
  rewrite load_file_size_spec, Hfail. cbn [fst].
  unfold reader_wait_for_file_size.
  destruct (Z.ltb_spec (Z.of_nat (length (stream_bytes s))) target).
  - split; split; intros; try discriminate; try lia; reflexivity.
  - split; split; intros; try discriminate; try lia; reflexivity.
Qed.

Lemma reader_wait_for_file_size_reached_witness :
  fail SampleStream.fresh = false /\
  reader_wait_for_file_size (fst (load_file_size SampleStream.fresh)) 16
  = heif_reader_grow_status_size_reached /\
  reader_wait_for_file_size (fst (load_file_size SampleStream.fresh)) 17
  = heif_reader_grow_status_size_beyond_eof.
Proof.
  split; [reflexivity |].
  destruct (reader_wait_for_file_size_reached SampleStream.fresh 16 eq_refl)
    as [[_ Hreached] _].
  destruct (reader_wait_for_file_size_reached SampleStream.fresh 17 eq_refl)
    as [_ [_ Hbeyond]].
  split; [apply Hreached | apply Hbeyond]; vm_compute; try discriminate;
    reflexivity.
Defined.

Lemma fail_false_bits (s : istream) :
  fail s = false -> failbit s = false /\ badbit s = false.
Proof. unfold fail. intros H. apply orb_false_elim in H. exact H. Qed.

Lemma stream_tellg_good (s : istream) :
  good s = true -> stream_tellg s = (Z.of_nat (stream_pos s), s).
Proof.
  intros Hg. unfold stream_tellg, stream_sentry. rewrite Hg.
  unfold good in Hg.
  apply andb_prop in Hg as [Hg Hbad]. apply andb_prop in Hg as [_ Hfail].
  apply negb_true_iff in Hfail, Hbad. unfold fail. rewrite Hfail, Hbad.
  reflexivity.
Qed.

Lemma stream_seekg_pos_in_range (pos : Z) (s : istream) :
  fail s = false -> 0 <= pos <= Z.of_nat (length (stream_bytes s)) ->
  stream_seekg_pos pos s
  = mkStream (stream_bytes s) (Z.to_nat pos) false false false
             (stream_gcount s).
Proof.
  intros Hfail Hpos. apply fail_false_bits in Hfail as [Hf Hb].
  unfold stream_seekg_pos, stream_seekg, fail.
  destruct (Z.leb_spec 0 pos); [| lia].
  cbn [failbit badbit stream_bytes]. rewrite Hf, Hb. cbn [orb].
  destruct (Nat.leb_spec (Z.to_nat pos) (length (stream_bytes s))); [| lia].
  reflexivity.
Qed.

Lemma stream_read_available (n : nat) (s : istream) :
  good s = true ->
  (n <= length (skipn (stream_pos s) (stream_bytes s)))%nat ->
  stream_read n s
  = (firstn n (skipn (stream_pos s) (stream_bytes s)),
     mkStream (stream_bytes s) (stream_pos s + n) (eofbit s) (failbit s)
              (badbit s) n).
Proof.
  intros Hg Hn. unfold stream_read. rewrite Hg.
  assert (Hlen : length (firstn n (skipn (stream_pos s) (stream_bytes s))) = n)
    by (rewrite length_firstn; lia).
  rewrite Hlen, Nat.ltb_irrefl, !orb_false_r. reflexivity.
Qed.

(** X3: on a stream that has not failed, seeking to a position and reading
    a number of bytes that lie inside the stream both return 0; the bytes
    delivered are those of the stream from that position, and the position
    reported afterwards is behind them. *)
Theorem reader_seek_read_round_trip :
  forall (s : istream) (pos size : Z),
    fail s = false ->
    0 <= pos -> 0 <= size ->
    pos + size <= Z.of_nat (length (stream_bytes s)) ->
    let '(sought, s1) := reader_seek pos s in
    let '(r, s2) := reader_read size s1 in
    sought = 0 /\
    r = (0, firstn (Z.to_nat size) (skipn (Z.to_nat pos) (stream_bytes s))) /\
    fst (reader_get_position s2) = pos + size /\
    good s2 = true.
Proof.
  intros s pos size Hfail Hpos Hsize Hend.
  unfold reader_seek. rewrite stream_seekg_pos_in_range by (auto; lia).
  cbn [good eofbit failbit badbit negb andb].
  unfold reader_read. rewrite stream_read_available.
  - cbn [good eofbit failbit badbit negb andb stream_pos stream_bytes].
    split; [reflexivity |]. split; [reflexivity |].
    unfold reader_get_position. rewrite stream_tellg_good by reflexivity.
    cbn [fst stream_pos]. split; [lia | reflexivity].
  - reflexivity.
  - cbn [stream_pos stream_bytes]. rewrite length_skipn. lia.
Qed.

Lemma reader_seek_read_round_trip_witness :
  let '(sought, s1) := reader_seek 4 SampleStream.fresh in
  let '(r, s2) := reader_read 8 s1 in
  sought = 0 /\
  r = (0, firstn 8 (skipn 4 SampleStream.bytes)) /\
  fst (reader_get_position s2) = 12 /\ good s2 = true.
Proof.
  exact (reader_seek_read_round_trip SampleStream.fresh 4 8
           eq_refl ltac:(lia) ltac:(lia) ltac:(vm_compute; discriminate)).
Defined.

Lemma reader_step_failed (c : reader_call) (s : istream) :
  fail s = true ->
  fst (reader_step c s) = -1 /\ fail (snd (reader_step c s)) = true.
Proof.
  intros Hfail.
  assert (Hgood : good s = false).
  { unfold fail in Hfail. unfold good.
    destruct (eofbit s), (failbit s), (badbit s); try reflexivity;
      discriminate. }
  destruct c as [| size | pos]; cbn [reader_step].
  - unfold reader_get_position, stream_tellg, stream_sentry.
    rewrite Hgood. unfold fail. cbn [failbit badbit orb fst snd].
    split; reflexivity.
  - unfold reader_read, stream_read. rewrite Hgood.
    unfold good, fail. cbn [eofbit failbit badbit fst snd].
    rewrite andb_false_r. cbn. split; reflexivity.
  - unfold reader_seek, stream_seekg_pos, stream_seekg.
    assert (Hf1 : fail (mkStream (stream_bytes s) (stream_pos s) false
                          (failbit s) (badbit s) (stream_gcount s)) = true)
      by exact Hfail.
    destruct (0 <=? pos); rewrite Hf1; cbn [fst snd]; rewrite Hf1;
      unfold good, fail in *; cbn [eofbit failbit badbit] in *;
      destruct (failbit s), (badbit s); try discriminate; split; reflexivity.
Qed.

Lemma reader_step_error_fails (c : reader_call) (s : istream) :
  fst (reader_step c s) = -1 -> fail (snd (reader_step c s)) = true.
Proof.
  destruct (fail s) eqn:Hfail.
  { intros _. apply reader_step_failed. exact Hfail. }
  apply fail_false_bits in Hfail as [Hf Hb].
  destruct c as [| size | pos]; cbn [reader_step].
  - unfold reader_get_position, stream_tellg, stream_sentry, good, fail.
    rewrite Hf, Hb.
    destruct (eofbit s); cbn; rewrite ?Hf, ?Hb; cbn; intros H;
      try reflexivity; lia.
  - unfold reader_read, stream_read, good, fail. rewrite Hf, Hb.
    destruct (eofbit s); cbn [negb andb orb fst snd eofbit failbit badbit].
    + intros _. reflexivity.
    + destruct (Nat.ltb _ _); cbn; intros H; [reflexivity | discriminate].
  - unfold reader_seek, stream_seekg_pos, stream_seekg, fail, good.
    cbn [failbit badbit eofbit]. rewrite Hf, Hb. cbn [orb].
    destruct (0 <=? pos).
    + destruct (Nat.leb _ _); cbn; intros H; [discriminate | reflexivity].
    + cbn. intros _. reflexivity.
Qed.

Lemma reader_steps_failed (cs : list reader_call) :
  forall s : istream,
    fail s = true -> Forall (fun r => r = -1) (fst (reader_steps cs s)).
Proof.
  induction cs as [| c cs IH]; intros s Hfail; cbn [reader_steps].
  - constructor.
  - destruct (reader_step_failed c s Hfail) as [Hr Hs].
    destruct (reader_step c s) as [r s1]. cbn [fst snd] in Hr, Hs.
    specialize (IH s1 Hs). destruct (reader_steps cs s1) as [rs s2].
    cbn [fst] in *. constructor; assumption.
Qed.

(** X4: the reader never recovers.  Once a call of libheif on the reader
    has returned -1 (a read that ran into the end of the stream, a seek
    outside it), every later call returns -1, whatever it asks for. *)
Theorem reader_failure_is_final :
  forall (c : reader_call) (s : istream) (cs : list reader_call),
    fst (reader_step c s) = -1 ->
    Forall (fun r => r = -1) (fst (reader_steps cs (snd (reader_step c s)))).
Proof.
  intros c s cs Herr. apply reader_steps_failed.
  apply reader_step_error_fails. exact Herr.
Qed.

Lemma reader_failure_is_final_witness :
  fst (reader_step (call_read 17) SampleStream.fresh) = -1 /\
  Forall (fun r => r = -1)
    (fst (reader_steps [call_seek 0; call_read 4; call_get_position]
            (snd (reader_step (call_read 17) SampleStream.fresh)))).
Proof.
  split; [reflexivity |].
  apply (reader_failure_is_final (call_read 17) SampleStream.fresh
           [call_seek 0; call_read 4; call_get_position]).
  reflexivity.
Defined.

Lemma canLoadFile_stream (check : list Byte.byte -> Z -> heif_filetype_result)
    (s : istream) :
  snd (canLoadFile check s)
  = mkStream (stream_bytes s) 0 false false false
             (stream_gcount (snd (stream_read 12 s))).
Proof.
  unfold canLoadFile.
  rewrite (surjective_pairing (stream_read 12 s)). cbv beta iota.
  rewrite stream_seekg_0_clear, stream_read_bytes.
  destruct (fail _ || negb _); reflexivity.
Qed.

(** X5: whatever state the stream was in, after [canLoadFile] the size
    probe of [load] finds the number of bytes of the stream. *)
Theorem load_file_size_after_canLoadFile :
  forall (check : list Byte.byte -> Z -> heif_filetype_result) (s : istream),
    fst (load_file_size (snd (canLoadFile check s)))
    = Z.of_nat (length (stream_bytes s)).
Proof.
  intros check s. rewrite canLoadFile_stream, load_file_size_spec.
  reflexivity.
Qed.

(** X6: on a good stream at position 0, [canLoadFile] can be asked again:
    the second call gives the answer of the first and leaves the stream as
    the first left it. *)
Theorem canLoadFile_repeatable :
  forall (check : list Byte.byte -> Z -> heif_filetype_result) (s : istream),
    good s = true -> stream_pos s = 0%nat ->
    canLoadFile check (snd (canLoadFile check s)) = canLoadFile check s.
Proof.
  intros check s Hgood Hpos.
  assert (Hread : stream_read 12 (snd (canLoadFile check s))
                  = stream_read 12 s).
  { rewrite canLoadFile_stream. unfold stream_read. rewrite Hgood, Hpos.
    unfold good in *. cbn [eofbit failbit badbit negb andb stream_pos
                           stream_bytes stream_gcount].
    apply andb_prop in Hgood as [Hg Hbad]. apply andb_prop in Hg as [He Hf].
    apply negb_true_iff in He, Hf, Hbad. rewrite He, Hf, Hbad.
    reflexivity. }
  unfold canLoadFile at 1 3. rewrite Hread. reflexivity.
Qed.

Lemma canLoadFile_repeatable_witness :
  canLoadFile SampleStream.check
    (snd (canLoadFile SampleStream.check SampleStream.fresh))
  = canLoadFile SampleStream.check SampleStream.fresh
  /\ fst (canLoadFile SampleStream.check SampleStream.fresh) = true.
Proof.
  split.
  - apply (canLoadFile_repeatable SampleStream.check SampleStream.fresh);
      reflexivity.
  - reflexivity.
Defined.

(** ** What [decodeImage] returns *)

Lemma found_transform_run (E : Collaborators) (h : heif_image_handle)
    (tr : list event) :
  getCmsTransform E h (handle_numChannels h) (handle_premultiplied h) tr
  = (found_transform E h,
     (tr ++ snd (getCmsTransform E h (handle_numChannels h)
                                 (handle_premultiplied h) []))%list).
Proof. apply getCmsTransform_trace. Qed.

Lemma found_transform_ok (E : Collaborators) (h : heif_image_handle) :
  exists t : option cmsHTRANSFORM, found_transform E h = Ok t.
Proof.
  unfold found_transform, getCmsTransform.
  destruct (get_raw_color_profile_size h =? 0); [eexists; reflexivity |].
  destruct (get_raw_color_profile h) as [profileData | [| code] message];
    try (eexists; reflexivity).
  destruct (cmsOpenProfileFromMem E profileData _) as [src |];
    [| eexists; reflexivity].
  destruct (cmsCreateRGBProfile E) as [dst |]; [| eexists; reflexivity].
  destruct (cmsCreateTransform E src _ dst TYPE_RGBA_FLT);
    eexists; reflexivity.
Qed.

(** The image the ICC branch builds. *)
Lemma decodeImage_icc_run (E : Collaborators) (transform : cmsHTRANSFORM)
    (size : Vector2i) (numChannels bitsPerPixel : Z) (data : list (list Z))
    (chs : list Channel) (tr : list event) :
  exists tr' : list event,
    decodeImage_icc E transform size numChannels bitsPerPixel data chs tr
    = (Ok (mkImageData
             (fill_channels chs size
                (fun c y x =>
                   nth (Z.to_nat (4 * x + c))
                     (cmsDoTransform E transform
                        (map (fun i => normalize_sample bitsPerPixel
                                         (plane_sample data y i))
                             (Zrange (fst size * numChannels)))
                        (fst size))
                     F32.zero))
             Matrix4f_identity false),
       tr').
Proof.
  unfold decodeImage_icc. rewrite !bind_emit. unfold ret.
  eexists. reflexivity.
Qed.

Lemma decodeImage_nclx_trace (E : Collaborators) (h : heif_image_handle)
    (resultData : ImageData) (tr : list event) :
  decodeImage_nclx E h resultData tr
  = (fst (decodeImage_nclx E h resultData []),
     (tr ++ snd (decodeImage_nclx E h resultData []))%list).
Proof.
  unfold decodeImage_nclx.
  destruct (get_nclx_color_profile h) as [nclx | [| code] message].
  - rewrite !bind_emit.
    destruct (negb _); reflexivity.
  - cbn. rewrite app_nil_r. reflexivity.
  - reflexivity.
Qed.

(** [decodeImage] past its three checks. *)
Lemma decodeImage_run (E : Collaborators) (h : heif_image_handle)
    (targetSize : Vector2i) (namePrefix : string) (tr : list event)
    (img : heif_image) (data : list (list Z)) (t : option cmsHTRANSFORM) :
  get_width h <> 0 -> get_height h <> 0 ->
  decode_image h = heif_Ok img -> plane_readonly img = Some data ->
  found_transform E h = Ok t ->
  exists tr1 : list event,
    decodeImage E h targetSize namePrefix tr
    = match t with
      | Some transform =>
          decodeImage_icc E transform (get_width h, get_height h)
            (handle_numChannels h) (bits_per_pixel_range img) data
            (makeNChannels (handle_numChannels h)
                           (get_width h, get_height h) namePrefix)
      | None =>
          decodeImage_nclx E h
            (mkImageData
               (decodeImage_linear_channels E (get_width h, get_height h)
                  (handle_numChannels h) (bits_per_pixel_range img) data
                  (makeNChannels (handle_numChannels h)
                                 (get_width h, get_height h) namePrefix))
               Matrix4f_identity (handle_premultiplied h))
      end tr1.
Proof.
  intros Hw Hh Hdec Hplane Hfound.
  unfold decodeImage. cbn [fst snd].
  apply Z.eqb_neq in Hw, Hh. rewrite Hw, Hh. cbn [orb].
  rewrite bind_emit, Hdec, bind_emit, Hplane, bind_emit.
  unfold bind at 1. rewrite found_transform_run, Hfound.
  eexists. reflexivity.
Qed.

Lemma decodeImage_ok_inv (E : Collaborators) (h : heif_image_handle)
    (targetSize : Vector2i) (namePrefix : string) (tr tr' : list event)
    (r : ImageData) :
  decodeImage E h targetSize namePrefix tr = (Ok r, tr') ->
  get_width h <> 0 /\ get_height h <> 0 /\
  exists (img : heif_image) (data : list (list Z)),
    decode_image h = heif_Ok img /\ plane_readonly img = Some data.
Proof.
  unfold decodeImage. cbn [fst snd].
  destruct (get_width h =? 0) eqn:Hw; [discriminate |].
  destruct (get_height h =? 0) eqn:Hh; [discriminate |].
  cbn [orb]. rewrite bind_emit.
  destruct (decode_image h) as [img | code message] eqn:Hdec;
    [| discriminate].
  rewrite bind_emit.
  destruct (plane_readonly img) as [data |] eqn:Hplane; [| discriminate].
  intros _. apply Z.eqb_neq in Hw, Hh.
  split; [exact Hw |]. split; [exact Hh |].
  exists img, data. split; [reflexivity | exact Hplane].
Qed.

(** X7: with an image of some area, a decoding error of libheif makes
    [decodeImage] throw "Failed to decode image: ..." before the plane is
    asked for, and a null plane makes it throw "Faild to get image data.";
    in both cases no channel has been made. *)
Theorem decodeImage_decode_failures :
  forall (E : Collaborators) (h : heif_image_handle) (targetSize : Vector2i)
         (namePrefix : string) (tr : list event),
    get_width h <> 0 -> get_height h <> 0 ->
    (forall (code : heif_error_code) (message : string),
        decode_image h = heif_Error code message ->
        decodeImage E h targetSize namePrefix tr
        = (Throw ("Failed to decode image: " ++ message),
           (tr ++ [HeifDecodeImage])%list))
    /\
    (forall img : heif_image,
        decode_image h = heif_Ok img ->
        plane_readonly img = None ->
        decodeImage E h targetSize namePrefix tr
        = (Throw "Faild to get image data.",
           ((tr ++ [HeifDecodeImage]) ++ [HeifGetPlane])%list)).
Proof.
  intros E h targetSize namePrefix tr Hw Hh.
  apply Z.eqb_neq in Hw, Hh.
  split.
  - intros code message Hdec. unfold decodeImage. cbn [fst snd].
    rewrite Hw, Hh. cbn [orb]. rewrite bind_emit, Hdec. reflexivity.
  - intros img Hdec Hplane. unfold decodeImage. cbn [fst snd].
    rewrite Hw, Hh. cbn [orb].
    rewrite bind_emit, Hdec, bind_emit, Hplane. reflexivity.
Qed.

(** X8: the image [decodeImage] returns is marked premultiplied exactly
    when the handle has an alpha channel, the container marks it
    premultiplied, and no ICC transform was found. *)
Theorem decodeImage_premultiplied_iff :
  forall (E : Collaborators) (h : heif_image_handle) (targetSize : Vector2i)
         (namePrefix : string) (tr tr' : list event) (r : ImageData),
    decodeImage E h targetSize namePrefix tr = (Ok r, tr') ->
    (hasPremultipliedAlpha r = true <->
     has_alpha_channel h = true /\ is_premultiplied_alpha h = true /\
     found_transform E h = Ok None).
Proof.
  intros E h targetSize namePrefix tr tr' r Hrun.
  destruct (decodeImage_ok_inv _ _ _ _ _ _ _ Hrun)
    as [Hw [Hh [img [data [Hdec Hplane]]]]].
  destruct (found_transform_ok E h) as [t Hfound].
  destruct (decodeImage_run E h targetSize namePrefix tr img data t
              Hw Hh Hdec Hplane Hfound) as [tr1 Heq].
  rewrite Heq in Hrun. rewrite Hfound.
  destruct t as [transform |].
  - destruct (decodeImage_icc_run E transform (get_width h, get_height h)
                (handle_numChannels h) (bits_per_pixel_range img) data
                (makeNChannels (handle_numChannels h)
                               (get_width h, get_height h) namePrefix) tr1)
      as [tr2 Hicc].
    rewrite Hicc in Hrun. injection Hrun as <- _. cbn [hasPremultipliedAlpha].
    split; [discriminate | intros [_ [_ H]]; discriminate].
  - match type of Hrun with
    | decodeImage_nclx E h ?rd tr1 = _ =>
        destruct (decodeImage_nclx_matrix E h rd tr1 eq_refl)
          as [r' [tr2 [Hn [_ [Hflag _]]]]]
    end.
    rewrite Hn in Hrun. injection Hrun as <- _. rewrite Hflag.
    cbn [hasPremultipliedAlpha]. unfold handle_premultiplied,
      handle_numChannels.
    destruct (has_alpha_channel h), (is_premultiplied_alpha h); cbn;
      split; try discriminate; try tauto; intros [H1 [H2 _]];
      discriminate.
Qed.

Lemma decodeImage_decode_failures_witness :
  decodeImage Sample.collaborators SampleHandles.undecodable (0, 0) "" []
  = (Throw "Failed to decode image: Decoder plugin error", [HeifDecodeImage])
  /\
  decodeImage Sample.collaborators SampleHandles.no_plane (0, 0) "" []
  = (Throw "Faild to get image data.", [HeifDecodeImage; HeifGetPlane]).
Proof.
  split.
  - destruct (decodeImage_decode_failures Sample.collaborators
                SampleHandles.undecodable (0, 0) "" [])
      as [Herror _]; [discriminate | discriminate |].
    apply (Herror (heif_error_other 7) "Decoder plugin error"). reflexivity.
  - destruct (decodeImage_decode_failures Sample.collaborators
                SampleHandles.no_plane (0, 0) "" [])
      as [_ Hplane]; [discriminate | discriminate |].
    apply (Hplane (mkHeifImage 10 None)); reflexivity.
Defined.

Lemma decodeImage_premultiplied_iff_witness :
  exists (r : ImageData) (tr' : list event),
    decodeImage Sample.collaborators SampleHandles.premultiplied (0, 0) "" []
    = (Ok r, tr')
    /\ hasPremultipliedAlpha r = true.
Proof.
  destruct (decodeImage Sample.collaborators SampleHandles.premultiplied
              (0, 0) "" []) as [[r | what |] tr'] eqn:Hrun;
    try (vm_compute in Hrun; discriminate).
  exists r, tr'. split; [reflexivity |].
  apply (decodeImage_premultiplied_iff Sample.collaborators
           SampleHandles.premultiplied (0, 0) "" [] tr' r Hrun).
  repeat split; reflexivity.
Defined.

(** X9: a profile that is of no use (unreadable, not opened by lcms2, no
    Rec.709 profile, no transform) is not an error: [decodeImage] returns
    what it returns for the same handle without any profile.  Only the
    trace differs, by the warning. *)
Theorem decodeImage_profile_fallback :
  forall (E : Collaborators) (h : heif_image_handle) (targetSize : Vector2i)
         (namePrefix : string) (tr : list event),
    found_transform E h = Ok None ->
    fst (decodeImage E h targetSize namePrefix tr)
    = fst (decodeImage E (without_profile h) targetSize namePrefix tr).
Proof.
  intros E h targetSize namePrefix tr Hfound.
  assert (Hnone : forall n p tr0,
             getCmsTransform E (without_profile h) n p tr0 = (Ok None, tr0))
    by reflexivity.
  unfold decodeImage.
  change (get_width (without_profile h)) with (get_width h).
  change (get_height (without_profile h)) with (get_height h).
  change (decode_image (without_profile h)) with (decode_image h).
  change (handle_numChannels (without_profile h))
    with (handle_numChannels h).
  change (handle_premultiplied (without_profile h))
    with (handle_premultiplied h).
  change (decodeImage_nclx E (without_profile h))
    with (decodeImage_nclx E h).
  cbn [fst snd].
  destruct ((get_width h =? 0) || (get_height h =? 0)); [reflexivity |].
  rewrite !bind_emit.
  destruct (decode_image h) as [img | code message]; [| reflexivity].
  rewrite !bind_emit.
  destruct (plane_readonly img) as [data |]; [| reflexivity].
  rewrite !bind_emit.
  rewrite (bind_ok _ _ _ _ _ (Hnone _ _ _)).
  pose proof (found_transform_run E h
                (((tr ++ [HeifDecodeImage]) ++ [HeifGetPlane]) ++
                 [MakeNChannels (handle_numChannels h)
                    (get_width h, get_height h) namePrefix])%list) as Hrun.
  rewrite Hfound in Hrun. rewrite (bind_ok _ _ _ _ _ Hrun).
  rewrite decodeImage_nclx_trace.
  rewrite (decodeImage_nclx_trace E h _
             (((tr ++ [HeifDecodeImage]) ++ [HeifGetPlane]) ++ _)%list).
  reflexivity.
Qed.

Lemma decodeImage_profile_fallback_witness :
  found_transform Sample.collaborators SampleHandles.unreadable_profile
  = Ok None /\
  fst (decodeImage Sample.collaborators SampleHandles.unreadable_profile
                   (0, 0) "" [])
  = fst (decodeImage Sample.collaborators
           (without_profile SampleHandles.unreadable_profile) (0, 0) "" []).
Proof.
  split; [reflexivity |].
  apply (decodeImage_profile_fallback Sample.collaborators
           SampleHandles.unreadable_profile (0, 0) "" []).
  reflexivity.
Defined.

(** X10: when an ICC transform is found, the NCLX profile is never
    consulted: [decodeImage] returns the same image and leaves the same
    trace whatever libheif would answer for it. *)
Theorem decodeImage_icc_ignores_nclx :
  forall (E : Collaborators) (h : heif_image_handle)
         (nclx : heif_result heif_color_profile_nclx)
         (targetSize : Vector2i) (namePrefix : string) (tr : list event)
         (transform : cmsHTRANSFORM),
    found_transform E h = Ok (Some transform) ->
    decodeImage E (with_nclx h nclx) targetSize namePrefix tr
    = decodeImage E h targetSize namePrefix tr.
Proof.
  intros E h nclx targetSize namePrefix tr transform Hfound.
  unfold decodeImage.
  change (get_width (with_nclx h nclx)) with (get_width h).
  change (get_height (with_nclx h nclx)) with (get_height h).
  change (decode_image (with_nclx h nclx)) with (decode_image h).
  change (handle_numChannels (with_nclx h nclx))
    with (handle_numChannels h).
  change (handle_premultiplied (with_nclx h nclx))
    with (handle_premultiplied h).
  change (getCmsTransform E (with_nclx h nclx)) with (getCmsTransform E h).
  cbn [fst snd].
  destruct ((get_width h =? 0) || (get_height h =? 0)); [reflexivity |].
  rewrite !bind_emit.
  destruct (decode_image h) as [img | code message]; [| reflexivity].
  rewrite !bind_emit.
  destruct (plane_readonly img) as [data |]; [| reflexivity].
  rewrite !bind_emit.
  pose proof (found_transform_run E h
                (((tr ++ [HeifDecodeImage]) ++ [HeifGetPlane]) ++
                 [MakeNChannels (handle_numChannels h)
                    (get_width h, get_height h) namePrefix])%list) as Hrun.
  rewrite Hfound in Hrun. rewrite !(bind_ok _ _ _ _ _ Hrun).
  reflexivity.
Qed.

Lemma decodeImage_icc_ignores_nclx_witness :
  found_transform Sample.collaborators Sample.icc_handle = Ok (Some 3%nat) /\
  decodeImage Sample.collaborators
    (with_nclx Sample.icc_handle (heif_Ok SampleHandles.nclx_p3)) (0, 0) "" []
  = decodeImage Sample.collaborators Sample.icc_handle (0, 0) "" [].
Proof.
  split; [reflexivity |].
  apply (decodeImage_icc_ignores_nclx Sample.collaborators Sample.icc_handle
           (heif_Ok SampleHandles.nclx_p3) (0, 0) "" [] 3%nat).
  reflexivity.
Defined.

(** ** The samples and the shape of the decoded channels *)

Lemma decodeImage_ok_cases (E : Collaborators) (h : heif_image_handle)
    (targetSize : Vector2i) (namePrefix : string) (tr tr' : list event)
    (r : ImageData) :
  decodeImage E h targetSize namePrefix tr = (Ok r, tr') ->
  exists (img : heif_image) (data : list (list Z)),
    decode_image h = heif_Ok img /\ plane_readonly img = Some data /\
    let size := (get_width h, get_height h) in
    let chs := makeNChannels (handle_numChannels h) size namePrefix in
    ((exists transform : cmsHTRANSFORM,
         found_transform E h = Ok (Some transform) /\
         toRec709 r = Matrix4f_identity /\
         channels r =
         fill_channels chs size
           (fun c y x =>
              nth (Z.to_nat (4 * x + c))
                (cmsDoTransform E transform
                   (map (fun i => normalize_sample (bits_per_pixel_range img)
                                    (plane_sample data y i))
                        (Zrange (fst size * handle_numChannels h)))
                   (fst size))
                F32.zero))
     \/
     (found_transform E h = Ok None /\
      channels r =
      decodeImage_linear_channels E size (handle_numChannels h)
        (bits_per_pixel_range img) data chs /\
      toRec709 r =
      match get_nclx_color_profile h with
      | heif_Error _ _ => Matrix4f_identity
      | heif_Ok nclx =>
          if color_primaries nclx =? heif_color_primaries_ITU_R_BT_709_5
          then Matrix4f_identity
          else
            let M :=
              M44f_mul E
                (Imf_RGBtoXYZ E
                   (mkChromaticities
                      (color_primary_red_x nclx, color_primary_red_y nclx)
                      (color_primary_green_x nclx, color_primary_green_y nclx)
                      (color_primary_blue_x nclx, color_primary_blue_y nclx)
                      (color_primary_white_x nclx, color_primary_white_y nclx))
                   F32.one)
                (Imf_XYZtoRGB E (Imf_Chromaticities_default E) F32.one) in
            map (fun m => map (fun n => M44f_x M m n) (Zrange 4)) (Zrange 4)
      end)).
Proof.
  intros Hrun.
  destruct (decodeImage_ok_inv _ _ _ _ _ _ _ Hrun)
    as [Hw [Hh [img [data [Hdec Hplane]]]]].
  destruct (found_transform_ok E h) as [t Hfound].
  destruct (decodeImage_run E h targetSize namePrefix tr img data t
              Hw Hh Hdec Hplane Hfound) as [tr1 Heq].
  rewrite Heq in Hrun.
  exists img, data. split; [exact Hdec |]. split; [exact Hplane |].
  cbv zeta. destruct t as [transform |].
  - left. exists transform.
    destruct (decodeImage_icc_run E transform (get_width h, get_height h)
                (handle_numChannels h) (bits_per_pixel_range img) data
                (makeNChannels (handle_numChannels h)
                               (get_width h, get_height h) namePrefix) tr1)
      as [tr2 Hicc].
    rewrite Hicc in Hrun. injection Hrun as <- _.
    split; [exact Hfound |]. split; reflexivity.
  - right.
    match type of Hrun with
    | decodeImage_nclx E h ?rd tr1 = _ =>
        destruct (decodeImage_nclx_matrix E h rd tr1 eq_refl)
          as [r' [tr2 [Hn [Hch [_ Hm]]]]]
    end.
    rewrite Hn in Hrun. injection Hrun as <- _.
    split; [exact Hfound |]. split; [exact Hch | exact Hm].
Qed.

(** X11: without an ICC transform, the sample of channel [c] at pixel
    [(x, y)] of the image [decodeImage] returns is the normalized raw sample
    [x * numChannels + c] of row [y]: as it is for alpha (channel 3),
    through [toLinear] for the colour channels. *)
Theorem decodeImage_linear_samples :
  forall (E : Collaborators) (h : heif_image_handle) (targetSize : Vector2i)
         (namePrefix : string) (tr tr' : list event) (r : ImageData)
         (img : heif_image) (data : list (list Z))
         (c : nat) (x y : Z) (d : Channel),
    decodeImage E h targetSize namePrefix tr = (Ok r, tr') ->
    found_transform E h = Ok None ->
    decode_image h = heif_Ok img -> plane_readonly img = Some data ->
    (c < Z.to_nat (handle_numChannels h))%nat ->
    0 <= x < get_width h -> 0 <= y < get_height h ->
    Channel_at (nth c (channels r) d) (y * get_width h + x)
    = let v := normalize_sample (bits_per_pixel_range img)
                 (plane_sample data y
                    (x * handle_numChannels h + Z.of_nat c)) in
      if Z.of_nat c =? 3 then v else toLinear E v.
Proof.
  intros E h targetSize namePrefix tr tr' r img data c x y d
         Hrun Hfound Hdec Hplane Hc Hx Hy.
  destruct (decodeImage_ok_cases _ _ _ _ _ _ _ Hrun)
    as [img' [data' [Hdec' [Hplane' Hcases]]]].
  rewrite Hdec in Hdec'. injection Hdec' as <-.
  rewrite Hplane in Hplane'. injection Hplane' as <-.
  cbv zeta in Hcases.
  destruct Hcases as [[transform [Hsome _]] | [_ [Hch _]]].
  - rewrite Hfound in Hsome. discriminate.
  - rewrite Hch. apply decodeImage_linear_channels_at; assumption.
Qed.

(** X12: with an ICC transform, each row of raw samples is normalized and
    handed to lcms2 as a whole, and channel [c] at pixel [(x, y)] is entry
    [4 * x + c] of the transformed row [y]. *)
Theorem decodeImage_icc_samples :
  forall (E : Collaborators) (h : heif_image_handle) (targetSize : Vector2i)
         (namePrefix : string) (tr tr' : list event) (r : ImageData)
         (img : heif_image) (data : list (list Z)) (transform : cmsHTRANSFORM)
         (c : nat) (x y : Z) (d : Channel),
    decodeImage E h targetSize namePrefix tr = (Ok r, tr') ->
    found_transform E h = Ok (Some transform) ->
    decode_image h = heif_Ok img -> plane_readonly img = Some data ->
    (c < Z.to_nat (handle_numChannels h))%nat ->
    0 <= x < get_width h -> 0 <= y < get_height h ->
    Channel_at (nth c (channels r) d) (y * get_width h + x)
    = nth (Z.to_nat (4 * x + Z.of_nat c))
        (cmsDoTransform E transform
           (map (fun i => normalize_sample (bits_per_pixel_range img)
                            (plane_sample data y i))
                (Zrange (get_width h * handle_numChannels h)))
           (get_width h))
        F32.zero.
Proof.
  intros E h targetSize namePrefix tr tr' r img data transform c x y d
         Hrun Hfound Hdec Hplane Hc Hx Hy.
  destruct (decodeImage_ok_cases _ _ _ _ _ _ _ Hrun)
    as [img' [data' [Hdec' [Hplane' Hcases]]]].
  rewrite Hdec in Hdec'. injection Hdec' as <-.
  rewrite Hplane in Hplane'. injection Hplane' as <-.
  cbv zeta in Hcases.
  destruct Hcases as [[transform' [Hsome [_ Hch]]] | [Hnone _]].
  - rewrite Hfound in Hsome. injection Hsome as <-.
    rewrite Hch. cbn [fst].
    rewrite fill_channels_at; [reflexivity | | exact Hx | exact Hy].
    rewrite makeNChannels_length. exact Hc.
  - rewrite Hfound in Hnone. discriminate.
Qed.

(** X13: the matrix of the image [decodeImage] returns.  It is the
    identity when an ICC transform was found, when libheif gives no NCLX
    profile, and when the NCLX profile is tagged BT.709; otherwise it is the
    product of OpenEXR's [RGBtoXYZ] of the embedded chromaticities and
    [XYZtoRGB] of the default ones, copied entry by entry. *)
Theorem decodeImage_matrix :
  forall (E : Collaborators) (h : heif_image_handle) (targetSize : Vector2i)
         (namePrefix : string) (tr tr' : list event) (r : ImageData),
    decodeImage E h targetSize namePrefix tr = (Ok r, tr') ->
    toRec709 r =
    match found_transform E h, get_nclx_color_profile h with
    | Ok None, heif_Ok nclx =>
        if color_primaries nclx =? heif_color_primaries_ITU_R_BT_709_5
        then Matrix4f_identity
        else
          let M :=
            M44f_mul E
              (Imf_RGBtoXYZ E
                 (mkChromaticities
                    (color_primary_red_x nclx, color_primary_red_y nclx)
                    (color_primary_green_x nclx, color_primary_green_y nclx)
                    (color_primary_blue_x nclx, color_primary_blue_y nclx)
                    (color_primary_white_x nclx, color_primary_white_y nclx))
                 F32.one)
              (Imf_XYZtoRGB E (Imf_Chromaticities_default E) F32.one) in
          map (fun m => map (fun n => M44f_x M m n) (Zrange 4)) (Zrange 4)
    | _, _ => Matrix4f_identity
    end.
Proof.
  intros E h targetSize namePrefix tr tr' r Hrun.
  destruct (decodeImage_ok_cases _ _ _ _ _ _ _ Hrun)
    as [img [data [_ [_ Hcases]]]].
  cbv zeta in Hcases.
  destruct Hcases as [[transform [Hsome [Hm _]]] | [Hnone [_ Hm]]].
  - rewrite Hsome. exact Hm.
  - rewrite Hnone, Hm.
    destruct (get_nclx_color_profile h) as [nclx | code message];
      reflexivity.
Qed.

Lemma decodeImage_matrix_witness :
  exists (r : ImageData) (tr' : list event),
    decodeImage Sample.collaborators Sample.primary_handle (0, 0) "" []
    = (Ok r, tr')
    /\ toRec709 r = Matrix4f_identity.
Proof.
  destruct (decodeImage Sample.collaborators Sample.primary_handle
              (0, 0) "" [])
    as [[r | what |] tr'] eqn:Hrun; try (vm_compute in Hrun; discriminate).
  exists r, tr'. split; [reflexivity |].
  rewrite (decodeImage_matrix Sample.collaborators Sample.primary_handle
             (0, 0) "" [] tr' r Hrun).
  reflexivity.
Defined.

Lemma decodeImage_linear_samples_witness :
  exists (r : ImageData) (tr' : list event),
    decodeImage Sample.collaborators SampleHandles.premultiplied (0, 0) "" []
    = (Ok r, tr')
    /\ Channel_at (nth 3 (channels r) (mkChannel "" (0, 0) [])) 0
       = normalize_sample 12 2048.
Proof.
  destruct (decodeImage Sample.collaborators SampleHandles.premultiplied
              (0, 0) "" [])
    as [[r | what |] tr'] eqn:Hrun; try (vm_compute in Hrun; discriminate).
  exists r, tr'. split; [reflexivity |].
  apply (decodeImage_linear_samples Sample.collaborators
           SampleHandles.premultiplied (0, 0) "" [] tr' r
           (mkHeifImage 12 (Some [[4095; 0; 0; 2048]]))
           [[4095; 0; 0; 2048]] 3%nat 0 0 (mkChannel "" (0, 0) []) Hrun);
    try reflexivity; try (vm_compute; lia); cbn; lia.
Defined.

Lemma decodeImage_icc_samples_witness :
  exists (r : ImageData) (tr' : list event),
    decodeImage Sample.collaborators Sample.icc_handle (0, 0) "" []
    = (Ok r, tr')
    /\ Channel_at (nth 0 (channels r) (mkChannel "" (0, 0) [])) 0
       = normalize_sample 10 1023.
Proof.
  destruct (decodeImage Sample.collaborators Sample.icc_handle (0, 0) "" [])
    as [[r | what |] tr'] eqn:Hrun; try (vm_compute in Hrun; discriminate).
  exists r, tr'. split; [reflexivity |].
  apply (decodeImage_icc_samples Sample.collaborators Sample.icc_handle
           (0, 0) "" [] tr' r
           (mkHeifImage 10 (Some [[1023; 0; 0; 1023]]))
           [[1023; 0; 0; 1023]] 3%nat 0%nat 0 0 (mkChannel "" (0, 0) [])
           Hrun);
    try reflexivity; try (vm_compute; lia); cbn; lia.
Defined.

Lemma prefix_append (p s : string) : String.prefix p (p ++ s) = true.
Proof.
  induction p as [| a p IH].
  - destruct s; reflexivity.
  - cbn. destruct (ascii_dec a a) as [_ | Hne]; [exact IH | contradiction].
Qed.

Lemma flat_map_rows_length {A : Type} (f : Z -> list A) (w : nat) :
  (forall y : Z, length (f y) = w) ->
  forall rows : list Z, length (flat_map f rows) = (length rows * w)%nat.
Proof.
  intros Hlen rows. induction rows as [| row rows IH]; cbn [flat_map length].
  - reflexivity.
  - rewrite length_app, Hlen, IH. lia.
Qed.

Lemma fill_channels_shape_at (size : Vector2i)
    (value : Z -> Z -> Z -> float) (chs : list Channel) :
  Forall (fun c => channel_size c = size) chs ->
  forall idx : list Z,
    length idx = length chs ->
    let filled :=
      map (fun cc : Z * Channel =>
             let (c, ch) := cc in
             mkChannel (channel_name ch) (channel_size ch)
               (flat_map (fun y => map (fun x => value c y x)
                                       (Zrange (fst size)))
                         (Zrange (snd size))))
          (combine idx chs) in
    Forall (channel_shaped size) filled /\
    map channel_name filled = map channel_name chs.
Proof.
  intros Hsz. induction Hsz as [| ch chs Hch Hrest IH]; intros idx Hlen.
  - destruct idx; cbn; auto.
  - destruct idx as [| i idx]; [discriminate |].
    cbn [length] in Hlen. injection Hlen as Hlen.
    destruct (IH idx Hlen) as [H2 H3].
    cbn [combine map]. split.
    + constructor; [| exact H2].
      unfold channel_shaped. cbn [channel_size channel_data].
      split; [exact Hch |].
      rewrite (flat_map_rows_length _ (Z.to_nat (fst size))).
      * rewrite Zrange_length. reflexivity.
      * intros y. rewrite length_map, Zrange_length. reflexivity.
    + cbn [channel_name]. rewrite H3. reflexivity.
Qed.

(** Filling keeps the names and the sizes of the channels, and gives each
    as many samples as the size has pixels. *)
Lemma fill_channels_shape (size : Vector2i) (value : Z -> Z -> Z -> float)
    (chs : list Channel) :
  Forall (fun c => channel_size c = size) chs ->
  Forall (channel_shaped size) (fill_channels chs size value) /\
  map channel_name (fill_channels chs size value) = map channel_name chs.
Proof.
  intros Hsz. unfold fill_channels.
  apply (fill_channels_shape_at size value chs Hsz).
  rewrite Zrange_length, Nat2Z.id. reflexivity.
Qed.

Lemma makeNChannels_sizes (numChannels : Z) (size : Vector2i)
    (namePrefix : string) :
  Forall (fun c => channel_size c = size)
         (makeNChannels numChannels size namePrefix).
Proof.
  unfold makeNChannels. apply Forall_forall. intros ch Hin.
  apply in_map_iff in Hin as [c [<- _]]. reflexivity.
Qed.

Lemma makeNChannels_prefixed (numChannels : Z) (size : Vector2i)
    (namePrefix : string) :
  Forall (fun name => String.prefix namePrefix name = true)
         (map channel_name (makeNChannels numChannels size namePrefix)).
Proof.
  unfold makeNChannels. rewrite map_map. apply Forall_forall.
  intros name Hin. apply in_map_iff in Hin as [c [<- _]].
  cbn [channel_name]. apply prefix_append.
Qed.

Lemma map_length_eq {A B : Type} (f : A -> B) (l l' : list A) :
  map f l = map f l' -> length l = length l'.
Proof.
  intros H. rewrite <- (length_map f l), H. apply length_map.
Qed.

(** The channels of a decoded image. *)
Lemma decodeImage_channels_shape (E : Collaborators) (h : heif_image_handle)
    (targetSize : Vector2i) (namePrefix : string) (tr tr' : list event)
    (r : ImageData) :
  decodeImage E h targetSize namePrefix tr = (Ok r, tr') ->
  Forall (channel_shaped (get_width h, get_height h)) (channels r) /\
  map channel_name (channels r)
  = map channel_name
      (makeNChannels (handle_numChannels h) (get_width h, get_height h)
                     namePrefix).
Proof.
  intros Hrun.
  destruct (decodeImage_ok_cases _ _ _ _ _ _ _ Hrun)
    as [img [data [_ [_ Hcases]]]].
  cbv zeta in Hcases.
  destruct Hcases as [[transform [_ [_ Hch]]] | [_ [Hch _]]]; rewrite Hch.
  - apply fill_channels_shape, makeNChannels_sizes.
  - unfold decodeImage_linear_channels.
    apply fill_channels_shape, makeNChannels_sizes.
Qed.

Lemma decodeImage_shape_parts (E : Collaborators) (h : heif_image_handle)
    (targetSize : Vector2i) (namePrefix : string) (tr tr' : list event)
    (r : ImageData) :
  decodeImage E h targetSize namePrefix tr = (Ok r, tr') ->
  length (channels r) = (if has_alpha_channel h then 4 else 3)%nat /\
  Forall (channel_shaped (get_width h, get_height h)) (channels r) /\
  Forall (fun c => String.prefix namePrefix (channel_name c) = true)
         (channels r).
Proof.
  intros Hrun.
  destruct (decodeImage_channels_shape _ _ _ _ _ _ _ Hrun) as [Hshape Hnames].
  split; [| split; [exact Hshape |]].
  - rewrite (map_length_eq _ _ _ Hnames), makeNChannels_length.
    unfold handle_numChannels. destruct (has_alpha_channel h); reflexivity.
  - apply (proj1 (Forall_map channel_name
             (fun name => String.prefix namePrefix name = true) (channels r))).
    rewrite Hnames. apply makeNChannels_prefixed.
Qed.

(** X14: the image [decodeImage] returns has four channels when the handle
    has an alpha channel and three otherwise; each has the width and height
    of the handle and one sample per pixel, and a name that starts with the
    prefix it was asked for. *)
Theorem decodeImage_shape :
  forall (E : Collaborators) (h : heif_image_handle) (targetSize : Vector2i)
         (namePrefix : string) (tr tr' : list event) (r : ImageData),
    decodeImage E h targetSize namePrefix tr = (Ok r, tr') ->
    length (channels r) = (if has_alpha_channel h then 4 else 3)%nat /\
    Forall (channel_shaped (get_width h, get_height h)) (channels r) /\
    Forall (fun c => String.prefix namePrefix (channel_name c) = true)
           (channels r).
Proof.
  intros E h targetSize namePrefix tr tr' r Hrun.
  exact (decodeImage_shape_parts E h targetSize namePrefix tr tr' r Hrun).
Qed.

Lemma decodeImage_shape_witness :
  exists (r : ImageData) (tr' : list event),
    decodeImage Sample.collaborators Sample.gainmap_handle (4, 1)
                "urn.com.apple.photo.2020.aux.hdrgainmap." []
    = (Ok r, tr')
    /\ length (channels r) = 3%nat
    /\ Forall (channel_shaped (2, 1)) (channels r).
Proof.
  destruct (decodeImage Sample.collaborators Sample.gainmap_handle (4, 1)
              "urn.com.apple.photo.2020.aux.hdrgainmap." [])
    as [[r | what |] tr'] eqn:Hrun; try (vm_compute in Hrun; discriminate).
  exists r, tr'. split; [reflexivity |].
  destruct (decodeImage_shape Sample.collaborators Sample.gainmap_handle
              (4, 1) "urn.com.apple.photo.2020.aux.hdrgainmap." [] tr' r Hrun)
    as [Hlen [Hshape _]].
  split; [exact Hlen | exact Hshape].
Defined.

(** ** What [resizeImage] returns *)

Lemma resizeImage_channels_shape (resultData : ImageData) (front : Channel)
    (rest : list Channel) (targetSize : Vector2i) (namePrefix : string)
    (tr tr' : list event) (scaled : ImageData) :
  channels resultData = front :: rest ->
  Vector2i_eqb (channel_size front) targetSize = false ->
  resizeImage resultData targetSize namePrefix tr = (Ok scaled, tr') ->
  Forall (channel_shaped targetSize) (channels scaled) /\
  map channel_name (channels scaled)
  = map channel_name
      (makeNChannels (Z.of_nat (length (channels resultData))) targetSize
                     namePrefix).
Proof.
  intros Hch Hne. unfold resizeImage. rewrite Hch, Hne, bind_emit.
  unfold ret. intros Hrun. injection Hrun as <- _. cbn [channels].
  apply fill_channels_shape, makeNChannels_sizes.
Qed.

(** X15: resampling an image to another resolution gives an image with as
    many channels, each of the target size with one sample per pixel and a
    name that starts with the prefix; the premultiplied flag is carried
    over; and the sample of channel [c] at [(dstX, dstY)] is the value
    interpolated from channel [c] of the source. *)
Theorem resizeImage_resampled :
  forall (resultData : ImageData) (front : Channel) (rest : list Channel)
         (targetSize : Vector2i) (namePrefix : string) (tr : list event),
    channels resultData = front :: rest ->
    Vector2i_eqb (channel_size front) targetSize = false ->
    exists (scaled : ImageData) (tr' : list event),
      resizeImage resultData targetSize namePrefix tr = (Ok scaled, tr')
      /\ length (channels scaled) = length (channels resultData)
      /\ Forall (channel_shaped targetSize) (channels scaled)
      /\ Forall (fun c => String.prefix namePrefix (channel_name c) = true)
                (channels scaled)
      /\ hasPremultipliedAlpha scaled = hasPremultipliedAlpha resultData
      /\ forall (c : nat) (dstX dstY : Z) (d d' : Channel),
           (c < length (channels resultData))%nat ->
           0 <= dstX < fst targetSize -> 0 <= dstY < snd targetSize ->
           Channel_at (nth c (channels scaled) d)
                      (dstY * fst targetSize + dstX)
           = resizeImage_pixel (channel_size front) targetSize
               (nth c (channels resultData) d') dstY dstX.
Proof.
  intros resultData front rest targetSize namePrefix tr Hch Hne.
  destruct (resizeImage_resamples resultData front rest targetSize namePrefix
              tr Hch Hne) as [scaled [Hrun [Hflag Hsamples]]].
  destruct (resizeImage_channels_shape _ _ _ _ _ _ _ _ Hch Hne Hrun)
    as [Hshape Hnames].
  exists scaled. eexists. split; [exact Hrun |].
  split; [| split; [exact Hshape | split; [| split; [exact Hflag |
                                                   exact Hsamples]]]].
  - rewrite (map_length_eq _ _ _ Hnames), makeNChannels_length.
    apply Nat2Z.id.
  - apply (proj1 (Forall_map channel_name
             (fun name => String.prefix namePrefix name = true)
             (channels scaled))).
    rewrite Hnames. apply makeNChannels_prefixed.
Qed.

Lemma resizeImage_resampled_witness :
  exists (scaled : ImageData) (tr' : list event),
    resizeImage Sample.image_2x1 (4, 1) "aux." [] = (Ok scaled, tr')
    /\ length (channels scaled) = 3%nat
    /\ Forall (channel_shaped (4, 1)) (channels scaled).
Proof.
  destruct (resizeImage_resampled Sample.image_2x1
              (mkChannel "R" (2, 1) [F32.zero; F32.one])
              [mkChannel "G" (2, 1) [F32.zero; F32.one];
               mkChannel "B" (2, 1) [F32.zero; F32.one]]
              (4, 1) "aux." [] eq_refl eq_refl)
    as [scaled [tr' [Hrun [Hlen [Hshape _]]]]].
  exists scaled, tr'. split; [exact Hrun |]. split; [exact Hlen | exact Hshape].
Defined.

Lemma decode_resize_shape (E : Collaborators) (h : heif_image_handle)
    (targetSize : Vector2i) (namePrefix : string) (tr tr1 : list event)
    (aux1 : ImageData) :
  decodeImage E h targetSize namePrefix tr = (Ok aux1, tr1) ->
  exists (aux2 : ImageData) (tr2 : list event),
    resizeImage aux1 targetSize namePrefix tr1 = (Ok aux2, tr2)
    /\ length (channels aux2) = (if has_alpha_channel h then 4 else 3)%nat
    /\ Forall (channel_shaped targetSize) (channels aux2)
    /\ Forall (fun c => String.prefix namePrefix (channel_name c) = true)
              (channels aux2)
    /\ hasPremultipliedAlpha aux2 = hasPremultipliedAlpha aux1.
Proof.
  intros Hdec.
  destruct (decodeImage_shape_parts E h targetSize namePrefix tr tr1 aux1 Hdec)
    as [Hlen [Hshape Hprefix]].
  destruct (channels aux1) as [| front rest] eqn:Hch.
  { destruct (has_alpha_channel h); discriminate. }
  destruct (Vector2i_eqb (channel_size front) targetSize) eqn:Heq.
  - exists aux1, tr1.
    assert (Hsize : channel_size front = targetSize).
    { unfold Vector2i_eqb in Heq. apply andb_prop in Heq as [H1 H2].
      apply Z.eqb_eq in H1, H2.
      destruct (channel_size front), targetSize. cbn in *. congruence. }
    split.
    { unfold resizeImage. rewrite Hch, Heq. reflexivity. }
    rewrite Hch. split; [exact Hlen |].
    split; [| split; [exact Hprefix | reflexivity]].
    assert (Hwh : (get_width h, get_height h) = targetSize).
    { inversion Hshape as [| ? ? [Hf _] _]. rewrite <- Hf. exact Hsize. }
    rewrite <- Hwh. exact Hshape.
  - assert (Hch' : channels aux1 = front :: rest) by exact Hch.
    destruct (resizeImage_resamples aux1 front rest targetSize namePrefix
                tr1 Hch' Heq) as [scaled [Hrun [Hflag _]]].
    destruct (resizeImage_channels_shape _ _ _ _ _ _ _ _ Hch' Heq Hrun)
      as [Hshape2 Hnames].
    exists scaled. eexists. split; [exact Hrun |].
    split; [| split; [exact Hshape2 | split; [| exact Hflag]]].
    + rewrite (map_length_eq _ _ _ Hnames), makeNChannels_length, Nat2Z.id.
      rewrite Hch'. exact Hlen.
    + apply (proj1 (Forall_map channel_name
               (fun name => String.prefix namePrefix name = true)
               (channels scaled))).
      rewrite Hnames. apply makeNChannels_prefixed.
Qed.

(** X16: the image of an auxiliary layer, decoded and then resampled to the
    size of the primary image.  The resampling never fails; the result has
    four channels when the handle has an alpha channel and three otherwise,
    each of the target size with one sample per pixel and a name that starts
    with the prefix. *)
Theorem decodeImage_resizeImage_shape :
  forall (E : Collaborators) (h : heif_image_handle) (targetSize : Vector2i)
         (namePrefix : string) (tr tr1 : list event) (aux1 : ImageData),
    decodeImage E h targetSize namePrefix tr = (Ok aux1, tr1) ->
    exists (aux2 : ImageData) (tr2 : list event),
      resizeImage aux1 targetSize namePrefix tr1 = (Ok aux2, tr2)
      /\ length (channels aux2) = (if has_alpha_channel h then 4 else 3)%nat
      /\ Forall (channel_shaped targetSize) (channels aux2)
      /\ Forall (fun c => String.prefix namePrefix (channel_name c) = true)
                (channels aux2)
      /\ hasPremultipliedAlpha aux2 = hasPremultipliedAlpha aux1.
Proof.
  intros E h targetSize namePrefix tr tr1 aux1 Hdec.
  exact (decode_resize_shape E h targetSize namePrefix tr tr1 aux1 Hdec).
Qed.

Lemma decodeImage_resizeImage_shape_witness :
  exists (aux1 aux2 : ImageData) (tr1 tr2 : list event),
    decodeImage Sample.collaborators Sample.gainmap_handle (4, 1) "aux." []
    = (Ok aux1, tr1)
    /\ resizeImage aux1 (4, 1) "aux." tr1 = (Ok aux2, tr2)
    /\ length (channels aux2) = 3%nat
    /\ Forall (channel_shaped (4, 1)) (channels aux2).
Proof.
  destruct (decodeImage Sample.collaborators Sample.gainmap_handle (4, 1)
              "aux." [])
    as [[aux1 | what |] tr1] eqn:Hdec; try (vm_compute in Hdec; discriminate).
  destruct (decodeImage_resizeImage_shape Sample.collaborators
              Sample.gainmap_handle (4, 1) "aux." [] tr1 aux1 Hdec)
    as [aux2 [tr2 [Hrun [Hlen [Hshape _]]]]].
  exists aux1, aux2, tr1, tr2.
  split; [reflexivity |]. split; [exact Hrun |].
  split; [exact Hlen | exact Hshape].
Defined.

(** ** The search for the maker note *)

Lemma findAppleMakerNote_blocks_passed_over (E : Collaborators)
    (pre rest : list metadata_block) :
  forallb (block_passed_over E) pre = true ->
  forall tr : list event,
    exists tr' : list event,
      findAppleMakerNote_blocks E (pre ++ rest) tr
      = findAppleMakerNote_blocks E rest tr'.
Proof.
  induction pre as [| block pre IH]; intros Hall tr.
  - exists tr. reflexivity.
  - cbn [forallb] in Hall. apply andb_prop in Hall as [Hblock Hrest].
    specialize (IH Hrest). cbn [app findAppleMakerNote_blocks].
    unfold block_passed_over in Hblock.
    destruct (get_metadata_size block <=? 4).
    { rewrite bind_emit. apply IH. }
    cbn [orb] in Hblock.
    destruct (get_metadata block) as [exifData | code message].
    2: { rewrite bind_emit. apply IH. }
    destruct (exif_data_new_from_data block) as [exif |].
    2: { rewrite bind_emit. apply IH. }
    destruct (exif_data_get_entry_MAKER_NOTE exif) as [makerNote |];
      [| discriminate].
    rewrite Hblock. apply IH.
Qed.

Lemma findAppleMakerNote_run (E : Collaborators) (ctx : heif_context)
    (tr : list event) :
  exif_metadata_blocks ctx <> [] ->
  exists tr1 : list event,
    findAppleMakerNote E ctx tr
    = findAppleMakerNote_blocks E (exif_metadata_blocks ctx) tr1.
Proof.
  intros Hne. unfold findAppleMakerNote. cbv zeta.
  destruct (exif_metadata_blocks ctx) as [| block blocks]; [contradiction |].
  assert (Hpos : (Z.of_nat (length (block :: blocks)) <=? 0) = false).
  { apply Z.leb_gt. cbn [length]. lia. }
  rewrite Hpos.
  destruct (Z.of_nat (length (block :: blocks)) >? 1).
  - rewrite bind_emit. eexists. reflexivity.
  - rewrite bind_ret. eexists. reflexivity.
Qed.

(** X17: the maker note comes from the first EXIF block that holds Apple's.
    When the blocks before it are all passed over (too short, unreadable,
    undecodable, or with the maker note of another vendor),
    [findAppleMakerNote] returns the maker-note entry of that block,
    whatever the blocks after it hold. *)
Theorem findAppleMakerNote_first_apple :
  forall (E : Collaborators) (ctx : heif_context)
         (pre post : list metadata_block) (block : metadata_block)
         (exifData : list Byte.byte) (makerNote : ExifEntry)
         (tr : list event),
    exif_metadata_blocks ctx = (pre ++ block :: post)%list ->
    forallb (block_passed_over E) pre = true ->
    4 < get_metadata_size block ->
    get_metadata block = heif_Ok exifData ->
    exif_data_new_from_data block = Some (mkExifData (Some makerNote)) ->
    isAppleMakernote E (entry_data makerNote) (entry_size makerNote) = true ->
    exists tr' : list event,
      findAppleMakerNote E ctx tr
      = (Ok (Some (mkAppleMakerNote (entry_data makerNote)
                                    (entry_size makerNote))), tr').
Proof.
  intros E ctx pre post block exifData makerNote tr
         Hblocks Hpre Hsize Hmeta Hexif Happle.
  destruct (findAppleMakerNote_run E ctx tr) as [tr1 Hrun].
  { rewrite Hblocks. destruct pre; discriminate. }
  rewrite Hrun, Hblocks.
  destruct (findAppleMakerNote_blocks_passed_over E pre (block :: post)
              Hpre tr1) as [tr2 Hskip].
  rewrite Hskip. cbn [findAppleMakerNote_blocks].
  apply Z.leb_gt in Hsize. rewrite Hsize, Hmeta, Hexif.
  cbn [exif_data_get_entry_MAKER_NOTE]. rewrite Happle. cbn [negb].
  eexists. reflexivity.
Qed.

Lemma findAppleMakerNote_first_apple_witness :
  exists tr' : list event,
    findAppleMakerNote Sample.collaborators
      (Sample.file [SampleHandles.exif_short; SampleHandles.exif_other_vendor;
                    Sample.exif_apple; Sample.exif_plain]
                   [])
      []
    = (Ok (Some (mkAppleMakerNote Sample.apple_signature 9)), tr').
Proof.
  apply (findAppleMakerNote_first_apple Sample.collaborators
           (Sample.file [SampleHandles.exif_short;
                         SampleHandles.exif_other_vendor;
                         Sample.exif_apple; Sample.exif_plain] [])
           [SampleHandles.exif_short; SampleHandles.exif_other_vendor]
           [Sample.exif_plain] Sample.exif_apple Sample.exif_bytes
           (mkExifEntry Sample.apple_signature 9) []);
    try reflexivity.
Defined.

(** X18: when every EXIF block is passed over, and in particular when there
    is none, [findAppleMakerNote] returns no maker note; it does not throw.
    With no block at all it logs one warning and nothing else. *)
Theorem findAppleMakerNote_none :
  forall (E : Collaborators) (ctx : heif_context) (tr : list event),
    forallb (block_passed_over E) (exif_metadata_blocks ctx) = true ->
    (exists tr' : list event, findAppleMakerNote E ctx tr = (Ok None, tr'))
    /\
    (exif_metadata_blocks ctx = [] ->
     findAppleMakerNote E ctx tr
     = (Ok None, (tr ++ [LogWarning "No EXIF metadata found"])%list)).
Proof.
  intros E ctx tr Hall. split.
  - destruct (exif_metadata_blocks ctx) as [| block blocks] eqn:Hblocks.
    + unfold findAppleMakerNote. rewrite Hblocks. cbn.
      eexists. reflexivity.
    + destruct (findAppleMakerNote_run E ctx tr) as [tr1 Hrun].
      { rewrite Hblocks. discriminate. }
      rewrite Hrun, Hblocks.
      apply findAppleMakerNote_blocks_none. exact Hall.
  - intros Hblocks. unfold findAppleMakerNote. rewrite Hblocks.
    reflexivity.
Qed.

Lemma findAppleMakerNote_none_witness :
  exists tr' : list event,
    findAppleMakerNote Sample.collaborators
      (Sample.file [SampleHandles.exif_short; SampleHandles.exif_other_vendor]
                   [])
      []
    = (Ok None, tr').
Proof.
  apply (findAppleMakerNote_none Sample.collaborators
           (Sample.file [SampleHandles.exif_short;
                         SampleHandles.exif_other_vendor] []) []).
  reflexivity.
Defined.

(** ** The name of an auxiliary layer *)

Lemma string_replace_app (from to : ascii) (s s' : string) :
  string_replace from to (s ++ s')
  = string_replace from to s ++ string_replace from to s'.
Proof.
  induction s as [| c s IH]; cbn; [reflexivity | rewrite IH; reflexivity].
Qed.

Lemma prefix_colon (b : ascii) (s : string) :
  String.prefix ":" (String b s) = Ascii.eqb b ":".
Proof.
  destruct (Ascii.eqb_spec b ":") as [-> | Hne].
  - destruct s; reflexivity.
  - apply not_true_is_false. intros H. apply prefix_correct in H.
    cbn [String.length substring] in H.
    destruct s; cbn in H; injection H as H; contradiction.
Qed.

Lemma string_replace_colon_free (s : string) :
  string_contains ":" (string_replace ":" "." s) = false.
Proof.
  induction s as [| c s IH]; [reflexivity |].
  cbn [string_replace string_contains]. rewrite IH, orb_false_r.
  rewrite prefix_colon.
  destruct (Ascii.eqb c ":") eqn:Hc; [reflexivity | exact Hc].
Qed.

Lemma string_replace_absent (s : string) :
  string_contains ":" s = false -> string_replace ":" "." s = s.
Proof.
  induction s as [| c s IH]; [reflexivity |].
  cbn [string_replace string_contains]. intros H.
  apply orb_false_elim in H as [Hhead Htail].
  rewrite (IH Htail). rewrite prefix_colon in Hhead. rewrite Hhead.
  reflexivity.
Qed.

(** X19: the name of an auxiliary layer holds no colon and ends in a
    period, and a type without colons is kept as it is before the period. *)
Theorem auxLayerName_normalized :
  forall (auxType : option string) (num_aux : Z),
    string_contains ":" (auxLayerName auxType num_aux) = false /\
    (exists stem : string, auxLayerName auxType num_aux = stem ++ ".") /\
    (forall t : string,
        auxType = Some t -> string_contains ":" t = false ->
        auxLayerName auxType num_aux = t ++ ".").
Proof.
  intros auxType num_aux. unfold auxLayerName. split; [| split].
  - apply string_replace_colon_free.
  - destruct auxType as [t |]; rewrite string_replace_app; eexists;
      reflexivity.
  - intros t -> Hfree. rewrite string_replace_app.
    rewrite (string_replace_absent t Hfree). reflexivity.
Qed.

(** ** [load] as a whole *)

Lemma load_run (E : Collaborators) (ctx : heif_context)
    (channelSelector : string) (handle : heif_image_handle) (u : unit)
    (tr : list event) :
  context_alloc ctx = true ->
  context_read_from_reader ctx = heif_Ok u ->
  get_primary_image_handle ctx = heif_Ok handle ->
  load E ctx channelSelector tr
  = (mainImage <- decodeImage E handle (0, 0) "" ;;
     let num_aux := Z.of_nat (length (auxiliary_image_handles ctx)) in
     if num_aux >? 0 then
       emit (LogDebug ("Found " ++ format_int num_aux
                                ++ " auxiliary image(s)")) ;;
       mainImage <- load_auxiliaries E ctx channelSelector num_aux
                      (auxiliary_image_handles ctx) mainImage ;;
       ret [mainImage]
     else ret [mainImage]) tr.
Proof.
  intros Halloc Hread Hprimary. unfold load.
  rewrite Halloc, Hread, Hprimary. reflexivity.
Qed.

(** X20: a context libheif cannot allocate, a stream it cannot read and a
    primary image it gives no handle for each make [load] throw its own
    message; nothing has been decoded or logged. *)
Theorem load_fails_early :
  forall (E : Collaborators) (ctx : heif_context) (channelSelector : string)
         (tr : list event),
    (context_alloc ctx = false ->
     load E ctx channelSelector tr
     = (Throw "Failed to allocate libheif context.", tr))
    /\
    (forall (code : heif_error_code) (message : string),
        context_alloc ctx = true ->
        context_read_from_reader ctx = heif_Error code message ->
        load E ctx channelSelector tr
        = (Throw ("Failed to read image: " ++ message), tr))
    /\
    (forall (u : unit) (code : heif_error_code) (message : string),
        context_alloc ctx = true ->
        context_read_from_reader ctx = heif_Ok u ->
        get_primary_image_handle ctx = heif_Error code message ->
        load E ctx channelSelector tr
        = (Throw ("Failed to get primary image handle: " ++ message), tr)).
Proof.
  intros E ctx sel tr. split; [| split].
  - intros Halloc. unfold load. rewrite Halloc. reflexivity.
  - intros code message Halloc Hread. unfold load.
    rewrite Halloc, Hread. reflexivity.
  - intros u code message Halloc Hread Hprimary. unfold load.
    rewrite Halloc, Hread, Hprimary. reflexivity.
Qed.

(** X21: a failure of the primary image is the failure of the load: when
    [decodeImage] throws on the primary handle, [load] throws the same
    exception and no auxiliary image is looked at. *)
Theorem load_primary_failure :
  forall (E : Collaborators) (ctx : heif_context) (channelSelector : string)
         (handle : heif_image_handle) (u : unit) (what : string)
         (tr tr' : list event),
    context_alloc ctx = true ->
    context_read_from_reader ctx = heif_Ok u ->
    get_primary_image_handle ctx = heif_Ok handle ->
    decodeImage E handle (0, 0) "" tr = (Throw what, tr') ->
    load E ctx channelSelector tr = (Throw what, tr').
Proof.
  intros E ctx sel handle u what tr tr' Halloc Hread Hprimary Hdec.
  rewrite (load_run E ctx sel handle u tr Halloc Hread Hprimary).
  apply bind_throw. exact Hdec.
Qed.

Lemma load_ok_inv (E : Collaborators) (ctx : heif_context)
    (channelSelector : string) (tr tr' : list event)
    (result : list ImageData) :
  load E ctx channelSelector tr = (Ok result, tr') ->
  exists (handle : heif_image_handle) (mainImage : ImageData)
         (tr0 : list event),
    get_primary_image_handle ctx = heif_Ok handle /\
    decodeImage E handle (0, 0) "" tr = (Ok mainImage, tr0) /\
    exists (mainImage' : ImageData) (tr1 : list event),
      load_auxiliaries E ctx channelSelector
        (Z.of_nat (length (auxiliary_image_handles ctx)))
        (auxiliary_image_handles ctx) mainImage tr1
      = (Ok mainImage', tr') /\
      fusions tr1 = fusions tr0 /\
      result = [mainImage'].
Proof.
  unfold load.
  destruct (context_alloc ctx); [| discriminate]. cbn [negb].
  destruct (context_read_from_reader ctx) as [u | code message];
    [| discriminate].
  destruct (get_primary_image_handle ctx) as [handle | code message];
    [| discriminate].
  unfold bind at 1.
  destruct (decodeImage E handle (0, 0) "" tr) as [[mainImage | what |] tr0]
    eqn:Hdec; try discriminate.
  cbv zeta. intros Hrun. exists handle, mainImage, tr0.
  split; [reflexivity |]. split; [exact Hdec |].
  destruct (auxiliary_image_handles ctx) as [| aux auxs] eqn:Hauxs.
  - cbn in Hrun. injection Hrun as <- <-.
    exists mainImage, tr0. repeat split; reflexivity.
  - assert (Hpos : (Z.of_nat (length (aux :: auxs)) >? 0) = true).
    { apply Z.gtb_lt. cbn [length]. lia. }
    rewrite Hpos, bind_emit in Hrun. unfold bind at 1 in Hrun.
    destruct (load_auxiliaries E ctx channelSelector
                (Z.of_nat (length (aux :: auxs))) (aux :: auxs) mainImage
                (tr0 ++ [LogDebug ("Found " ++
                           format_int (Z.of_nat (length (aux :: auxs)))
                           ++ " auxiliary image(s)")])%list)
      as [[m' | what |] tr2] eqn:Hloop; try discriminate.
    unfold ret in Hrun. injection Hrun as <- <-.
    exists m'. eexists. split; [exact Hloop |].
    split; [| reflexivity].
    rewrite fusions_snoc. cbn [is_fusion]. lia.
Qed.

(** X22: when [load] returns, it returns exactly one image. *)
Theorem load_returns_one_image :
  forall (E : Collaborators) (ctx : heif_context) (channelSelector : string)
         (tr tr' : list event) (result : list ImageData),
    load E ctx channelSelector tr = (Ok result, tr') ->
    length result = 1%nat.
Proof.
  intros E ctx sel tr tr' result Hrun.
  destruct (load_ok_inv E ctx sel tr tr' result Hrun)
    as [handle [m [tr0 [_ [_ [m' [tr1 [_ [_ ->]]]]]]]]].
  reflexivity.
Qed.

Lemma load_primary_failure_witness :
  load Sample.collaborators
    (mkContext true (heif_Ok tt) (heif_Ok SampleHandles.undecodable)
               [Sample.exif_apple] [heif_Ok Sample.gainmap_handle])
    "" []
  = (Throw "Failed to decode image: Decoder plugin error", [HeifDecodeImage]).
Proof.
  apply (load_primary_failure Sample.collaborators
           (mkContext true (heif_Ok tt) (heif_Ok SampleHandles.undecodable)
                      [Sample.exif_apple] [heif_Ok Sample.gainmap_handle])
           "" SampleHandles.undecodable tt);
    reflexivity.
Defined.

Lemma load_returns_one_image_witness :
  exists (result : list ImageData) (tr' : list event),
    load Sample.collaborators Sample.gainmap_file "" [] = (Ok result, tr')
    /\ length result = 1%nat.
Proof.
  destruct (load Sample.collaborators Sample.gainmap_file "" [])
    as [[result | what |] tr'] eqn:Hrun;
    try (vm_compute in Hrun; discriminate).
  exists result, tr'. split; [reflexivity |].
  apply (load_returns_one_image Sample.collaborators Sample.gainmap_file ""
           [] tr' result Hrun).
Defined.

(** ** Auxiliary images that are passed over *)

Lemma load_auxiliary_skipped (E : Collaborators) (ctx : heif_context)
    (channelSelector : string) (num_aux : Z)
    (aux : heif_result heif_image_handle) (mainImage : ImageData)
    (tr : list event) :
  aux_skipped E channelSelector num_aux aux = true ->
  load_auxiliary E ctx channelSelector num_aux aux mainImage tr
  = (Ok mainImage, (tr ++ unavailable_warnings [aux])%list).
Proof.
  unfold aux_skipped, load_auxiliary, unavailable_warnings, aux_unavailable.
  cbn [flat_map]. intros Hskip.
  destruct aux as [h | code message].
  - destruct (get_auxiliary_type h) as [auxType | code message].
    + cbv zeta. rewrite Hskip. cbn. rewrite app_nil_r. reflexivity.
    + reflexivity.
  - reflexivity.
Qed.

Lemma load_auxiliaries_skipped (E : Collaborators) (ctx : heif_context)
    (channelSelector : string) (num_aux : Z)
    (auxs : list (heif_result heif_image_handle)) :
  forallb (aux_skipped E channelSelector num_aux) auxs = true ->
  forall (mainImage : ImageData) (tr : list event),
    load_auxiliaries E ctx channelSelector num_aux auxs mainImage tr
    = (Ok mainImage, (tr ++ unavailable_warnings auxs)%list).
Proof.
  induction auxs as [| aux auxs IH]; intros Hall mainImage tr.
  - cbn. rewrite app_nil_r. reflexivity.
  - cbn [forallb] in Hall. apply andb_prop in Hall as [Hskip Hrest].
    cbn [load_auxiliaries].
    rewrite (bind_ok _ _ _ _ _
               (load_auxiliary_skipped E ctx channelSelector num_aux aux
                                       mainImage tr Hskip)).
    rewrite (IH Hrest). unfold unavailable_warnings. cbn [flat_map].
    rewrite app_nil_r, app_assoc. reflexivity.
Qed.

(** X23: when every auxiliary image is passed over (no handle, no type, or
    a name the selector does not match), [load] returns the primary image
    as [decodeImage] made it.  No auxiliary image is decoded: after the
    primary image the trace holds the count of auxiliary images and the
    warnings for those libheif did not give. *)
Theorem load_nothing_selected :
  forall (E : Collaborators) (ctx : heif_context) (channelSelector : string)
         (handle : heif_image_handle) (u : unit) (mainImage : ImageData)
         (tr tr0 : list event),
    context_alloc ctx = true ->
    context_read_from_reader ctx = heif_Ok u ->
    get_primary_image_handle ctx = heif_Ok handle ->
    decodeImage E handle (0, 0) "" tr = (Ok mainImage, tr0) ->
    forallb (aux_skipped E channelSelector
               (Z.of_nat (length (auxiliary_image_handles ctx))))
            (auxiliary_image_handles ctx) = true ->
    load E ctx channelSelector tr
    = (Ok [mainImage],
       (tr0 ++
        match auxiliary_image_handles ctx with
        | [] => []
        | auxs =>
            LogDebug ("Found " ++ format_int (Z.of_nat (length auxs))
                               ++ " auxiliary image(s)")
            :: unavailable_warnings auxs
        end)%list).
Proof.
  intros E ctx sel handle u mainImage tr tr0 Halloc Hread Hprimary Hdec Hall.
  rewrite (load_run E ctx sel handle u tr Halloc Hread Hprimary).
  rewrite (bind_ok _ _ _ _ _ Hdec). cbv zeta.
  destruct (auxiliary_image_handles ctx) as [| aux auxs] eqn:Hauxs.
  - cbn. rewrite app_nil_r. reflexivity.
  - assert (Hpos : (Z.of_nat (length (aux :: auxs)) >? 0) = true).
    { apply Z.gtb_lt. cbn [length]. lia. }
    rewrite Hpos, bind_emit.
    rewrite (bind_ok _ _ _ _ _
               (load_auxiliaries_skipped E ctx sel _ (aux :: auxs) Hall
                                         mainImage _)).
    unfold ret. rewrite <- app_assoc. reflexivity.
Qed.

Lemma load_nothing_selected_witness :
  exists mainImage : ImageData,
    load Sample.collaborators Sample.missing_aux_file "color" []
    = (Ok [mainImage],
       [HeifDecodeImage; HeifGetPlane; MakeNChannels 3 (4, 1) "";
        LogDebug "Found 2 auxiliary image(s)";
        LogWarning "Failed to get auxiliary image handle: Non-existing item"]).
Proof.
  destruct (decodeImage Sample.collaborators Sample.primary_handle
              (0, 0) "" [])
    as [[mainImage | what |] tr0] eqn:Hdec;
    try (vm_compute in Hdec; discriminate).
  exists mainImage.
  rewrite (load_nothing_selected Sample.collaborators Sample.missing_aux_file
             "color" Sample.primary_handle tt mainImage [] tr0
             eq_refl eq_refl eq_refl Hdec eq_refl).
  vm_compute in Hdec. injection Hdec as _ <-. reflexivity.
Defined.

(** ** A load without fusion *)

Lemma counting_ret {A : Type} (a : A) : counting (ret a).
Proof. intros tr. apply Nat.le_refl. Qed.

Lemma counting_throw {A : Type} (what : string) : counting (@throw A what).
Proof. intros tr. apply Nat.le_refl. Qed.

Lemma counting_undefined {A : Type} : counting (@undefined A).
Proof. intros tr. apply Nat.le_refl. Qed.

Lemma counting_emit (e : event) : counting (emit e).
Proof.
  intros tr. unfold emit. cbn [snd]. rewrite fusions_snoc. lia.
Qed.

Lemma counting_quiet {A : Type} (m : Task A) : quiet m -> counting m.
Proof. intros Hq tr. rewrite (Hq tr). lia. Qed.

Lemma counting_bind {A B : Type} (m : Task A) (k : A -> Task B) :
  counting m -> (forall a : A, counting (k a)) -> counting (bind m k).
Proof.
  intros Hm Hk tr. unfold bind. specialize (Hm tr).
  destruct (m tr) as [[a | what |] tr1]; cbn [snd] in *; try exact Hm.
  specialize (Hk a tr1). lia.
Qed.

Lemma load_auxiliary_counting (E : Collaborators) (ctx : heif_context)
    (channelSelector : string) (num_aux : Z)
    (aux : heif_result heif_image_handle) (mainImage : ImageData) :
  counting (load_auxiliary E ctx channelSelector num_aux aux mainImage).
Proof.
  unfold load_auxiliary. cbv zeta.
  repeat first
    [ apply counting_ret | apply counting_throw | apply counting_undefined
    | apply counting_emit
    | apply counting_quiet, decodeImage_quiet
    | apply counting_quiet, resizeImage_quiet
    | apply counting_quiet, findAppleMakerNote_quiet
    | apply counting_bind; [| intros ?]
    | match goal with
      | |- counting (match ?x with _ => _ end) => destruct x
      end ].
Qed.

Lemma load_auxiliaries_counting (E : Collaborators) (ctx : heif_context)
    (channelSelector : string) (num_aux : Z)
    (auxs : list (heif_result heif_image_handle)) :
  forall mainImage : ImageData,
    counting (load_auxiliaries E ctx channelSelector num_aux auxs mainImage).
Proof.
  induction auxs as [| aux auxs IH]; intros mainImage;
    cbn [load_auxiliaries].
  - apply counting_ret.
  - apply counting_bind; [apply load_auxiliary_counting | exact IH].
Qed.

(** One iteration that returns without fusion leaves the primary image as
    it was or appends channels of the size of its first channel. *)
Lemma load_auxiliary_no_fusion (E : Collaborators) (ctx : heif_context)
    (channelSelector : string) (num_aux : Z)
    (aux : heif_result heif_image_handle) (mainImage mainImage' : ImageData)
    (front : Channel) (rest : list Channel) (tr tr' : list event) :
  load_auxiliary E ctx channelSelector num_aux aux mainImage tr
  = (Ok mainImage', tr') ->
  fusions tr' = fusions tr ->
  channels mainImage = front :: rest ->
  mainImage' = mainImage \/
  exists aux2 : ImageData,
    mainImage' = mkImageData (channels mainImage ++ channels aux2)%list
                             (toRec709 mainImage)
                             (hasPremultipliedAlpha mainImage)
    /\ Forall (channel_shaped (channel_size front)) (channels aux2).
Proof.
  intros Hrun Hfus Hch. unfold load_auxiliary in Hrun.
  destruct aux as [h | code message].
  2: { rewrite bind_emit in Hrun. injection Hrun as <- _. left. reflexivity. }
  destruct (get_auxiliary_type h) as [auxType | code message].
  2: { rewrite bind_emit in Hrun. injection Hrun as <- _. left. reflexivity. }
  cbv zeta in Hrun.
  destruct (matchesFuzzy E (auxLayerName auxType num_aux) channelSelector).
  2: { injection Hrun as <- _. left. reflexivity. }
  cbn [negb] in Hrun. rewrite Hch in Hrun.
  unfold bind at 1 in Hrun.
  destruct (decodeImage E h (channel_size front)
              (auxLayerName auxType num_aux) tr)
    as [[aux1 | what |] tr1] eqn:Hdec; try discriminate.
  destruct (decode_resize_shape _ _ _ _ _ _ _ Hdec)
    as [aux2 [tr2 [Hres [_ [Hshape _]]]]].
  rewrite (bind_ok _ _ _ _ _ Hres) in Hrun.
  assert (Hq2 : fusions tr2 = fusions tr).
  { rewrite (quiet_run _ _ _ _ (resizeImage_quiet _ _ _) Hres).
    apply (quiet_run _ _ _ _ (decodeImage_quiet _ _ _ _) Hdec). }
  right. exists aux2. split; [| exact Hshape].
  destruct (is_apple_gainmap (auxLayerName auxType num_aux)).
  2: { injection Hrun as <- _. rewrite Hch. reflexivity. }
  rewrite bind_emit in Hrun. unfold bind at 1 in Hrun.
  destruct (findAppleMakerNote E ctx _) as [[[amn |] | what |] tr3] eqn:Hfind;
    try discriminate.
  - exfalso. rewrite !bind_emit in Hrun. injection Hrun as _ <-.
    pose proof (quiet_run _ _ _ _ (findAppleMakerNote_quiet _ _) Hfind) as Hq3.
    rewrite !fusions_snoc in Hfus. rewrite Hq3, fusions_snoc in Hfus.
    cbn [is_fusion] in Hfus. lia.
  - injection Hrun as <- _. rewrite Hch. reflexivity.
Qed.

Lemma load_auxiliaries_no_fusion (E : Collaborators) (ctx : heif_context)
    (channelSelector : string) (num_aux : Z) (front : Channel)
    (auxs : list (heif_result heif_image_handle)) :
  forall (mainImage mainImage' : ImageData) (rest : list Channel)
         (tr tr' : list event),
    load_auxiliaries E ctx channelSelector num_aux auxs mainImage tr
    = (Ok mainImage', tr') ->
    fusions tr' = fusions tr ->
    channels mainImage = front :: rest ->
    Forall (channel_shaped (channel_size front)) (channels mainImage) ->
    exists extra : list Channel,
      channels mainImage' = (channels mainImage ++ extra)%list /\
      toRec709 mainImage' = toRec709 mainImage /\
      hasPremultipliedAlpha mainImage' = hasPremultipliedAlpha mainImage /\
      Forall (channel_shaped (channel_size front)) (channels mainImage').
Proof.
  induction auxs as [| aux auxs IH];
    intros mainImage mainImage' rest tr tr' Hrun Hfus Hch Hshape.
  - cbn in Hrun. injection Hrun as <- _. exists [].
    rewrite app_nil_r. auto.
  - cbn [load_auxiliaries] in Hrun. unfold bind at 1 in Hrun.
    destruct (load_auxiliary E ctx channelSelector num_aux aux mainImage tr)
      as [[m1 | what |] tr1] eqn:Hstep; try discriminate.
    pose proof (load_auxiliary_counting E ctx channelSelector num_aux aux
                  mainImage tr) as Hc1.
    rewrite Hstep in Hc1. cbn [snd] in Hc1.
    pose proof (load_auxiliaries_counting E ctx channelSelector num_aux auxs
                  m1 tr1) as Hc2.
    rewrite Hrun in Hc2. cbn [snd] in Hc2.
    assert (Hf1 : fusions tr1 = fusions tr) by lia.
    assert (Hf2 : fusions tr' = fusions tr1) by lia.
    destruct (load_auxiliary_no_fusion _ _ _ _ _ _ _ _ _ _ _ Hstep Hf1 Hch)
      as [-> | [aux2 [-> Hshape2]]].
    + apply (IH _ _ rest _ _ Hrun Hf2 Hch Hshape).
    + destruct (IH _ _ (rest ++ channels aux2)%list _ _ Hrun Hf2)
        as [extra [H1 [H2 [H3 H4]]]].
      * cbn [channels]. rewrite Hch. reflexivity.
      * cbn [channels]. apply Forall_app. split; assumption.
      * cbn [channels toRec709 hasPremultipliedAlpha] in *.
        exists (channels aux2 ++ extra)%list.
        rewrite app_assoc. auto.
Qed.

(** X24: a load that returns without having invoked fusion.  Its image is
    the primary image with channels appended: the channels of the primary
    image come first and are those [decodeImage] made, the matrix and the
    premultiplied flag are those of the primary image, and every channel,
    appended ones included, has the width and height of the primary handle
    and one sample per pixel. *)
Theorem load_without_fusion :
  forall (E : Collaborators) (ctx : heif_context) (channelSelector : string)
         (tr tr' : list event) (result : list ImageData),
    load E ctx channelSelector tr = (Ok result, tr') ->
    fusions tr' = fusions tr ->
    exists (handle : heif_image_handle) (mainImage : ImageData)
           (tr0 : list event) (extra : list Channel),
      get_primary_image_handle ctx = heif_Ok handle /\
      decodeImage E handle (0, 0) "" tr = (Ok mainImage, tr0) /\
      result = [mkImageData (channels mainImage ++ extra)%list
                            (toRec709 mainImage)
                            (hasPremultipliedAlpha mainImage)] /\
      Forall (channel_shaped (get_width handle, get_height handle))
             (channels mainImage ++ extra)%list.
Proof.
  intros E ctx sel tr tr' result Hrun Hfus.
  destruct (load_ok_inv E ctx sel tr tr' result Hrun)
    as [handle [m [tr0 [Hprimary [Hdec [m' [tr1 [Hloop [Hf1 ->]]]]]]]]].
  pose proof (quiet_run _ _ _ _ (decodeImage_quiet _ _ _ _) Hdec) as Hf0.
  destruct (decodeImage_shape_parts _ _ _ _ _ _ _ Hdec) as [Hlen [Hshape _]].
  destruct (channels m) as [| front rest] eqn:Hch.
  { destruct (has_alpha_channel handle); discriminate. }
  assert (Hsize : channel_size front = (get_width handle, get_height handle)).
  { inversion Hshape as [| ? ? [Hf _] _]. exact Hf. }
  destruct (load_auxiliaries_no_fusion E ctx sel _ front _ m m' rest tr1 tr'
              Hloop) as [extra [H1 [H2 [H3 H4]]]].
  - lia.
  - exact Hch.
  - rewrite Hch, Hsize. exact Hshape.
  - exists handle, m, tr0, extra.
    split; [exact Hprimary |]. split; [exact Hdec |].
    rewrite Hch. rewrite Hch in H1. split.
    + destruct m' as [chs mat flag].
      cbn [channels toRec709 hasPremultipliedAlpha] in *. subst.
      reflexivity.
    + rewrite <- H1, <- Hsize. exact H4.
Qed.

Lemma load_without_fusion_witness :
  exists (result : list ImageData) (tr' : list event)
         (mainImage : ImageData) (extra : list Channel),
    load Sample.collaborators
      (Sample.file [] [heif_Ok SampleHandles.depth; heif_Ok Sample.gainmap_handle])
      "" []
    = (Ok result, tr')
    /\ result = [mkImageData (channels mainImage ++ extra)%list
                             (toRec709 mainImage)
                             (hasPremultipliedAlpha mainImage)]
    /\ Forall (channel_shaped (4, 1)) (channels mainImage ++ extra)%list.
Proof.
  destruct (load Sample.collaborators
              (Sample.file [] [heif_Ok SampleHandles.depth;
                               heif_Ok Sample.gainmap_handle]) "" [])
    as [[result | what |] tr'] eqn:Hrun;
    try (vm_compute in Hrun; discriminate).
  destruct (load_without_fusion Sample.collaborators
              (Sample.file [] [heif_Ok SampleHandles.depth;
                               heif_Ok Sample.gainmap_handle])
              "" [] tr' result Hrun)
    as [handle [mainImage [tr0 [extra [Hprimary [_ [Hresult Hshape]]]]]]].
  - vm_compute in Hrun. injection Hrun as _ <-. reflexivity.
  - injection Hprimary as <-.
    exists result, tr', mainImage, extra.
    split; [reflexivity |]. split; [exact Hresult | exact Hshape].
Defined.

(** ** Files without an Apple gain map *)

Lemma decodeImage_defined (E : Collaborators) (h : heif_image_handle)
    (targetSize : Vector2i) (namePrefix : string) (tr : list event) :
  fst (decodeImage E h targetSize namePrefix tr) <> Undefined.
Proof.
  destruct (decodeImage E h targetSize namePrefix tr) as [[r | what |] tr']
    eqn:Hrun; cbn [fst]; try discriminate.
  exfalso. revert Hrun. unfold decodeImage. cbn [fst snd].
  destruct ((get_width h =? 0) || (get_height h =? 0)); [discriminate |].
  rewrite bind_emit.
  destruct (decode_image h) as [img | code message]; [| discriminate].
  rewrite bind_emit.
  destruct (plane_readonly img) as [data |]; [| discriminate].
  rewrite bind_emit. unfold bind at 1. rewrite found_transform_run.
  destruct (found_transform_ok E h) as [[transform |] ->].
  - match goal with
    | |- decodeImage_icc E ?t ?sz ?n ?b ?d ?c ?tr0 = _ -> _ =>
        destruct (decodeImage_icc_run E t sz n b d c tr0) as [tr2 ->]
    end.
    discriminate.
  - match goal with
    | |- decodeImage_nclx E h ?rd ?tr0 = _ -> _ =>
        destruct (decodeImage_nclx_matrix E h rd tr0 eq_refl)
          as [r [tr2 [-> _]]]
    end.
    discriminate.
Qed.

(** One iteration on a layer that is not named as an Apple gain map: it
    throws, or it returns an image that still has its first channel, and
    fusion is not invoked. *)
Lemma load_auxiliary_plain (E : Collaborators) (ctx : heif_context)
    (channelSelector : string) (num_aux : Z)
    (aux : heif_result heif_image_handle) (mainImage : ImageData)
    (front : Channel) (rest : list Channel) (tr : list event) :
  (forall (h : heif_image_handle) (auxType : option string),
      aux = heif_Ok h -> get_auxiliary_type h = heif_Ok auxType ->
      is_apple_gainmap (auxLayerName auxType num_aux) = false) ->
  channels mainImage = front :: rest ->
  let r := load_auxiliary E ctx channelSelector num_aux aux mainImage tr in
  fusions (snd r) = fusions tr /\
  ((exists what : string, fst r = Throw what) \/
   (exists (mainImage' : ImageData) (rest' : list Channel),
       fst r = Ok mainImage' /\ channels mainImage' = front :: rest')).
Proof.
  intros Hplain Hch r. subst r.
  destruct (load_auxiliary E ctx channelSelector num_aux aux mainImage tr)
    as [o tr'] eqn:Hrun.
  cbn [fst snd]. revert Hrun. unfold load_auxiliary.
  destruct aux as [h | code message].
  2: { rewrite bind_emit. unfold ret. intros Hrun. injection Hrun as <- <-.
       rewrite fusions_snoc. cbn [is_fusion]. split; [lia |]. right. eauto. }
  destruct (get_auxiliary_type h) as [auxType | code message] eqn:Htype.
  2: { rewrite bind_emit. unfold ret. intros Hrun. injection Hrun as <- <-.
       rewrite fusions_snoc. cbn [is_fusion]. split; [lia |]. right. eauto. }
  cbv zeta. rewrite (Hplain h auxType eq_refl Htype).
  destruct (matchesFuzzy E (auxLayerName auxType num_aux) channelSelector).
  2: { cbn [negb]. unfold ret. intros Hrun. injection Hrun as <- <-.
       split; [reflexivity |]. right. eauto. }
  cbn [negb]. rewrite Hch. unfold bind at 1.
  destruct (decodeImage E h (channel_size front)
              (auxLayerName auxType num_aux) tr)
    as [[aux1 | what |] tr1] eqn:Hdec.
  - destruct (decode_resize_shape _ _ _ _ _ _ _ Hdec)
      as [aux2 [tr2 [Hres _]]].
    rewrite (bind_ok _ _ _ _ _ Hres). unfold ret.
    intros Hrun. injection Hrun as <- <-.
    split.
    + rewrite (quiet_run _ _ _ _ (resizeImage_quiet _ _ _) Hres).
      apply (quiet_run _ _ _ _ (decodeImage_quiet _ _ _ _) Hdec).
    + right. eexists. exists (rest ++ channels aux2)%list.
      split; reflexivity.
  - intros Hrun. injection Hrun as <- <-. split.
    + apply (quiet_run _ _ _ _ (decodeImage_quiet _ _ _ _) Hdec).
    + left. eauto.
  - exfalso.
    apply (decodeImage_defined E h (channel_size front)
             (auxLayerName auxType num_aux) tr).
    rewrite Hdec. reflexivity.
Qed.

Lemma load_auxiliaries_plain (E : Collaborators) (ctx : heif_context)
    (channelSelector : string) (num_aux : Z) (front : Channel)
    (auxs : list (heif_result heif_image_handle)) :
  Forall (fun aux =>
            forall (h : heif_image_handle) (auxType : option string),
              aux = heif_Ok h -> get_auxiliary_type h = heif_Ok auxType ->
              is_apple_gainmap (auxLayerName auxType num_aux) = false) auxs ->
  forall (mainImage : ImageData) (rest : list Channel) (tr : list event),
    channels mainImage = front :: rest ->
    let r := load_auxiliaries E ctx channelSelector num_aux auxs mainImage tr in
    fusions (snd r) = fusions tr /\ fst r <> Undefined.
Proof.
  intros Hplain. induction Hplain as [| aux auxs Haux _ IH];
    intros mainImage rest tr Hch; cbn [load_auxiliaries].
  - cbn. split; [reflexivity | discriminate].
  - destruct (load_auxiliary_plain E ctx channelSelector num_aux aux
                mainImage front rest tr Haux Hch) as [Hf Hcases].
    destruct (load_auxiliary E ctx channelSelector num_aux aux mainImage tr)
      as [[m1 | what |] tr1] eqn:Hstep; cbn [fst snd] in *.
    + destruct Hcases as [[what H] | [m' [rest' [H Hch']]]];
        [discriminate |].
      injection H as <-.
      rewrite (bind_ok _ _ _ _ _ Hstep).
      destruct (IH m1 rest' tr1 Hch') as [Hf2 Hdef].
      split; [lia | exact Hdef].
    + rewrite (bind_throw _ _ _ _ _ Hstep). cbn [fst snd].
      split; [exact Hf | discriminate].
    + destruct Hcases as [[what H] | [m' [rest' [H _]]]]; discriminate.
Qed.

(** X25: a file none of whose auxiliary layers is named as an Apple gain
    map.  Whatever its EXIF blocks hold, [load] does not look for a maker
    note: it never ends in undefined behaviour and never invokes fusion. *)
Theorem load_without_gainmap_layer :
  forall (E : Collaborators) (ctx : heif_context) (channelSelector : string)
         (tr : list event),
    Forall (fun aux =>
              forall (h : heif_image_handle) (auxType : option string),
                aux = heif_Ok h -> get_auxiliary_type h = heif_Ok auxType ->
                is_apple_gainmap
                  (auxLayerName auxType
                     (Z.of_nat (length (auxiliary_image_handles ctx))))
                = false)
           (auxiliary_image_handles ctx) ->
    fst (load E ctx channelSelector tr) <> Undefined /\
    fusions (snd (load E ctx channelSelector tr)) = fusions tr.
Proof.
  intros E ctx sel tr Hplain. unfold load.
  destruct (context_alloc ctx); [| split; [discriminate | reflexivity]].
  cbn [negb].
  destruct (context_read_from_reader ctx) as [u | code message];
    [| split; [discriminate | reflexivity]].
  destruct (get_primary_image_handle ctx) as [handle | code message];
    [| split; [discriminate | reflexivity]].
  destruct (decodeImage E handle (0, 0) "" tr) as [[m | what |] tr0] eqn:Hdec.
  - rewrite (bind_ok _ _ _ _ _ Hdec).
    pose proof (quiet_run _ _ _ _ (decodeImage_quiet _ _ _ _) Hdec) as Hf0.
    destruct (decodeImage_shape_parts _ _ _ _ _ _ _ Hdec) as [Hlen _].
    destruct (channels m) as [| front rest] eqn:Hch.
    { destruct (has_alpha_channel handle); discriminate. }
    cbv zeta.
    destruct (Z.of_nat (length (auxiliary_image_handles ctx)) >? 0).
    + rewrite !bind_emit.
      destruct (load_auxiliaries_plain E ctx sel _ front _ Hplain m rest
                  (tr0 ++ [LogDebug ("Found " ++
                     format_int
                       (Z.of_nat (length (auxiliary_image_handles ctx)))
                     ++ " auxiliary image(s)")])%list Hch) as [Hf Hdef].
      rewrite fusions_snoc in Hf. cbn [is_fusion] in Hf.
      destruct (load_auxiliaries E ctx sel _ _ m _) as [[m' | what |] tr1]
        eqn:Hloop; cbn [fst snd] in Hf, Hdef.
      * rewrite (bind_ok _ _ _ _ _ Hloop). cbn [fst snd ret].
        split; [discriminate | lia].
      * rewrite (bind_throw _ _ _ _ _ Hloop). cbn [fst snd].
        split; [discriminate | lia].
      * contradiction.
    + cbn [fst snd ret]. split; [discriminate | exact Hf0].
  - rewrite (bind_throw _ _ _ _ _ Hdec). cbn [fst snd].
    split; [discriminate |].
    apply (quiet_run _ _ _ _ (decodeImage_quiet _ _ _ _) Hdec).
  - exfalso. apply (decodeImage_defined E handle (0, 0) "" tr).
    rewrite Hdec. reflexivity.
Qed.

Lemma load_without_gainmap_layer_witness :
  fst (load Sample.collaborators
         (Sample.file [Sample.exif_plain] [heif_Ok SampleHandles.depth])
         "" []) <> Undefined
  /\ fusions (snd (load Sample.collaborators
                     (Sample.file [Sample.exif_plain]
                                  [heif_Ok SampleHandles.depth])
                     "" [])) = 0%nat.
Proof.
  apply (load_without_gainmap_layer Sample.collaborators
           (Sample.file [Sample.exif_plain] [heif_Ok SampleHandles.depth])
           "" []).
  constructor; [| constructor].
  intros h auxType Hh Htype. injection Hh as <-.
  cbn in Htype. injection Htype as <-. reflexivity.
Defined.

(** ** The warnings of [getCmsTransform] *)

